(** * config-init.js: the sandbox workspace patch of openclaw.json

    A shallow embedding of [src/config-init.js] and the properties its
    specification states about it.  The script is an ES module (strict mode):
    it reads two environment variables, reads and evaluates the configuration
    file, fills in [agents.defaults.sandbox], sets two fields, and writes the
    document back as indented JSON.

    What belongs to the JavaScript engine and not to the script (the number
    type and the evaluation of the file's text by [new Function]) is kept
    abstract in the class [Engine]; the file system and the environment are
    finite maps. *)

From stdpp Require Import base option strings list gmap.
From Stdlib Require Import ZArith Ascii String DecimalString.

Open Scope string_scope.
Open Scope list_scope.

(** ** Completions *)

(** The exceptions the script can meet: the engine's own error classes and the
    system errors of [node:fs] (an [Error] with a [code]). *)
Inductive exn :=
| TypeError
| SyntaxError
| ReferenceError
| RangeError
| SystemError (code : string).

(** The completion of an expression: a value, or a thrown exception. *)
Inductive completion (A : Type) :=
| Normal (a : A)
| Throw (e : exn).
Arguments Normal {A} a.
Arguments Throw {A} e.

Definition completion_bind {A B} (f : A -> completion B) (c : completion A)
  : completion B :=
  match c with
  | Normal a => f a
  | Throw e => Throw e
  end.

#[global] Instance completion_ret : MRet completion := @Normal.
#[global] Instance completion_mbind : MBind completion := @completion_bind.

(** ** The process: console, file system, control flow *)

(** One call of [console.log], [console.warn] or [console.error]; the last
    with the exception it was handed, if any. *)
Inductive output :=
| Log (text : string)
| Warn (text : string)
| Error (text : string) (cause : option exn).

(** What a path of the disk holds. *)
Inductive node :=
| RegularFile (content : string) (readable writable : bool)
| Directory.

(** The state a run acts on: the disk, what was printed so far, and the
    calls of [fs.writeFileSync] made so far (path and data). *)
Record machine := {
  disk : gmap string node;
  console : list output;
  fs_writes : list (string * string);
}.

(** How a statement ends: it goes on, throws, or the process exits. *)
Inductive flow (A : Type) :=
| Next (a : A)
| Raise (e : exn)
| Halt (code : Z).
Arguments Next {A} a.
Arguments Raise {A} e.
Arguments Halt {A} code.

Definition script (A : Type) : Type := machine -> machine * flow A.

Definition script_ret {A} (a : A) : script A := fun m => (m, Next a).

Definition script_bind {A B} (f : A -> script B) (s : script A) : script B :=
  fun m =>
    match s m with
    | (m', Next a) => f a m'
    | (m', Raise e) => (m', Raise e)
    | (m', Halt c) => (m', Halt c)
    end.

#[global] Instance script_mret : MRet script := @script_ret.
#[global] Instance script_mbind : MBind script := @script_bind.

(** [try { body } catch (e) { handler }]: [process.exit] is not caught. *)
Definition try_catch {A} (body : script A) (handler : exn -> script A)
  : script A :=
  fun m =>
    match body m with
    | (m', Raise e) => handler e m'
    | r => r
    end.

Definition when (b : bool) (s : script unit) : script unit :=
  if b then s else mret tt.

(** An expression evaluated as a statement. *)
Definition eval {A} (c : completion A) : script A :=
  fun m =>
    match c with
    | Normal a => (m, Next a)
    | Throw e => (m, Raise e)
    end.

Definition process_exit {A} (code : Z) : script A := fun m => (m, Halt code).

Definition print (o : output) : script unit :=
  fun m =>
    ({| disk := disk m; console := console m ++ [o];
        fs_writes := fs_writes m |}, Next tt).

Definition console_log (text : string) : script unit := print (Log text).
Definition console_warn (text : string) : script unit := print (Warn text).
Definition console_error (text : string) (cause : option exn) : script unit :=
  print (Error text cause).

(** [fs.existsSync]: true for whatever the path holds. *)
Definition fs_existsSync (path : string) : script bool :=
  fun m => (m, Next (bool_decide (is_Some (disk m !! path)))).

(** [fs.readFileSync(path, 'utf8')] *)
Definition fs_readFileSync (path : string) : script string :=
  fun m =>
    match disk m !! path with
    | Some (RegularFile content true _) => (m, Next content)
    | Some (RegularFile _ false _) => (m, Raise (SystemError "EACCES"))
    | Some Directory => (m, Raise (SystemError "EISDIR"))
    | None => (m, Raise (SystemError "ENOENT"))
    end.

(** [fs.writeFileSync(path, data)]: data that is [undefined] is refused with
    a [TypeError] before the disk is touched; a file that cannot be opened
    for writing is left as it is. *)
Definition fs_writeFileSync (path : string) (data : option string)
  : script unit :=
  fun m =>
    match data with
    | None => (m, Raise TypeError)
    | Some text =>
        let called :=
          {| disk := disk m; console := console m;
             fs_writes := fs_writes m ++ [(path, text)] |} in
        match disk m !! path with
        | Some (RegularFile _ r true) =>
            ({| disk := <[path := RegularFile text r true]> (disk m);
                console := console m;
                fs_writes := fs_writes called |}, Next tt)
        | Some (RegularFile _ _ false) => (called, Raise (SystemError "EACCES"))
        | Some Directory => (called, Raise (SystemError "EISDIR"))
        | None =>
            ({| disk := <[path := RegularFile text true true]> (disk m);
                console := console m;
                fs_writes := fs_writes called |}, Next tt)
        end
    end.

(** [process.env.X || fallback] *)
Definition or_default (x : option string) (fallback : string) : string :=
  match x with
  | Some s => if String.eqb s "" then fallback else s
  | None => fallback
  end.

(** [!process.env.X] *)
Definition env_falsy (x : option string) : bool :=
  match x with
  | Some s => String.eqb s ""
  | None => true
  end.

(** An environment variable inside a template literal. *)
Definition template (x : option string) : string :=
  match x with
  | Some s => s
  | None => "undefined"
  end.

(** ** Values *)

Set Warnings "-register-all".

Section Values.
Variable number : Type.

(** The values a configuration document is made of.  An object keeps its own
    properties in the order [OwnPropertyKeys] lists them; an array keeps its
    elements (a hole reads as [undefined]) and, apart from them, the named
    properties assigned to it. *)
Inductive value :=
| VUndefined
| VNull
| VBool (b : bool)
| VNum (n : number)
| VStr (s : string)
| VArr (elems : list value) (props : list (string * value))
| VObj (props : list (string * value)).

Fixpoint lookup_prop (k : string) (ps : list (string * value))
  : option value :=
  match ps with
  | [] => None
  | (k', x) :: ps' => if String.eqb k k' then Some x else lookup_prop k ps'
  end.

(** A store keeps the place of a key the object has and appends a new one. *)
Fixpoint store_prop (k : string) (x : value) (ps : list (string * value))
  : list (string * value) :=
  match ps with
  | [] => [(k, x)]
  | (k', y) :: ps' =>
      if String.eqb k k' then (k, x) :: ps' else (k', y) :: store_prop k x ps'
  end.

(** Induction on a value, with the hypothesis for every element of an array
    and for every property value. *)
Section Induction.
Variable P : value -> Prop.
Hypothesis Pundefined : P VUndefined.
Hypothesis Pnull : P VNull.
Hypothesis Pbool : forall b, P (VBool b).
Hypothesis Pnum : forall n, P (VNum n).
Hypothesis Pstr : forall s, P (VStr s).
Hypothesis Parr :
  forall es ps, Forall P es -> Forall (fun kx => P (snd kx)) ps ->
  P (VArr es ps).
Hypothesis Pobj :
  forall ps, Forall (fun kx => P (snd kx)) ps -> P (VObj ps).

Fixpoint value_ind_nested (v : value) : P v :=
  let elements :=
    fix elements (es : list value) : Forall P es :=
      match es with
      | [] => @List.Forall_nil _ P
      | e :: es' => @List.Forall_cons _ _ e es' (value_ind_nested e) (elements es')
      end in
  let properties :=
    fix properties (ps : list (string * value))
      : Forall (fun kx => P (snd kx)) ps :=
      match ps with
      | [] => @List.Forall_nil _ _
      | kx :: ps' =>
          @List.Forall_cons _ _ kx ps' (value_ind_nested (snd kx))
            (properties ps')
      end in
  match v with
  | VUndefined => Pundefined
  | VNull => Pnull
  | VBool b => Pbool b
  | VNum n => Pnum n
  | VStr s => Pstr s
  | VArr es ps => Parr es ps (elements es) (properties ps)
  | VObj ps => Pobj ps (properties ps)
  end.

End Induction.

End Values.

Arguments VUndefined {number}.
Arguments VNull {number}.
Arguments VBool {number} b.
Arguments VNum {number} n.
Arguments VStr {number} s.
Arguments VArr {number} elems props.
Arguments VObj {number} props.
Arguments lookup_prop {number} k ps.
Arguments store_prop {number} k x ps.

(** ** The engine *)

(** [number_to_boolean] is [ToBoolean] on numbers (false on zero and NaN),
    [number_to_json] the text [JSON.stringify] gives a number, and
    [evaluate src] the completion of [(new Function('return ' + src))()].
    The script's own comment trusts the file to hold data, so evaluation has
    no effect of its own: it returns a value or throws. *)
Class Engine := {
  number : Type;
  number_to_boolean : number -> bool;
  number_to_json : number -> string;
  evaluate : string -> completion (value number);
}.

Section Script.
Context `{E : Engine}.

#[local] Abbreviation val := (value number).
#[local] Abbreviation props := (list (string * value number)).

(** *** Property access *)

(** [ToBoolean], as [!x] applies it. *)
Definition to_boolean (v : val) : bool :=
  match v with
  | VUndefined | VNull => false
  | VBool b => b
  | VNum n => number_to_boolean n
  | VStr s => negb (String.eqb s "")
  | VArr _ _ | VObj _ => true
  end.

Definition is_object (v : val) : bool :=
  match v with
  | VArr _ _ | VObj _ => true
  | _ => false
  end.

(** The own property [k] of [v].  The names the script uses ([agents],
    [defaults], [sandbox], [workspaceRoot], [workspace]) are no array index,
    not [length], and on no built-in prototype, so for them a read [v.k] is
    this lookup. *)
Definition own_prop (v : val) (k : string) : option val :=
  match v with
  | VArr _ ps | VObj ps => lookup_prop k ps
  | _ => None
  end.

(** [v.k]: a [TypeError] on [undefined] and [null], [undefined] on the other
    primitives and for a name the object lacks. *)
Definition get_prop (v : val) (k : string) : completion val :=
  match v with
  | VUndefined | VNull => Throw TypeError
  | VBool _ | VNum _ | VStr _ => Normal VUndefined
  | VArr _ _ | VObj _ => Normal (default VUndefined (own_prop v k))
  end.

(** [v.k = x] in strict mode, giving [v] after the store: a [TypeError] on
    every primitive. *)
Definition set_prop (v : val) (k : string) (x : val) : completion val :=
  match v with
  | VArr es ps => Normal (VArr es (store_prop k x ps))
  | VObj ps => Normal (VObj (store_prop k x ps))
  | _ => Throw TypeError
  end.

(** [v.k1.k2...kn] *)
Fixpoint get_path (v : val) (p : list string) : completion val :=
  match p with
  | [] => Normal v
  | k :: p' => x ← get_prop v k; get_path x p'
  end.

(** The document with the object held under [k] replaced by its state after
    a store below it (objects are shared by reference in the script). *)
Definition write_back (v : val) (k : string) (o : val) : val :=
  match v with
  | VArr es ps => VArr es (store_prop k o ps)
  | VObj ps => VObj (store_prop k o ps)
  | _ => v
  end.

(** [v.p1...pn.k = x], giving [v] after the store. *)
Fixpoint assign (v : val) (p : list string) (k : string) (x : val)
  : completion val :=
  match p with
  | [] => set_prop v k x
  | k1 :: p' =>
      o ← get_prop v k1;
      o' ← assign o p' k x;
      Normal (write_back v k1 o')
  end.

(** [if (!v.p1...pn.k) v.p1...pn.k = {};] *)
Definition ensure (v : val) (p : list string) (k : string) : completion val :=
  x ← get_path v (p ++ [k]);
  if to_boolean x then Normal v else assign v p k (VObj []).

(** Lines 24-26. *)
Definition ensure_structure (config : val) : completion val :=
  config ← ensure config [] "agents";
  config ← ensure config ["agents"] "defaults";
  ensure config ["agents"; "defaults"] "sandbox".

(** Line 31. *)
Definition inject_workspace_root (hostWorkspaceRoot : val) (config : val)
  : completion val :=
  assign config ["agents"; "defaults"; "sandbox"] "workspaceRoot"
    hostWorkspaceRoot.

(** Line 36. *)
Definition set_workspace (config : val) : completion val :=
  assign config ["agents"; "defaults"] "workspace" (VStr "/workspace").

(** The patch of a parsed document: lines 24-36 without their logging. *)
Definition apply_patch (hostWorkspaceRoot : string) (config : val)
  : completion val :=
  config ← ensure_structure config;
  config ← inject_workspace_root (VStr hostWorkspaceRoot) config;
  set_workspace config.

(** *** Observing a document *)

(** The value under a path of own properties, if every key on it is there. *)
Fixpoint own_path (v : val) (p : list string) : option val :=
  match p with
  | [] => Some v
  | k :: p' => x ← own_prop v k; own_path x p'
  end.

Fixpoint is_prefix (p q : list string) : bool :=
  match p, q with
  | [], _ => true
  | _ :: _, [] => false
  | k :: p', j :: q' => String.eqb k j && is_prefix p' q'
  end.

(** One path leads to, or through, the other. *)
Definition comparable (p q : list string) : bool :=
  is_prefix p q || is_prefix q p.

Definition sandbox_path : list string := ["agents"; "defaults"; "sandbox"].
Definition workspace_root_path : list string :=
  ["agents"; "defaults"; "sandbox"; "workspaceRoot"].
Definition workspace_path : list string := ["agents"; "defaults"; "workspace"].

(** A path that is not on the way to a patched field, and not below one. *)
Definition off_patch (p : list string) : bool :=
  negb (comparable p workspace_root_path) && negb (comparable p workspace_path).

(** Along [p], every field that is there is falsy or an object. *)
Fixpoint fields_ok (v : val) (p : list string) : bool :=
  match p with
  | [] => true
  | k :: p' =>
      match own_prop v k with
      | None => true
      | Some x => negb (to_boolean x) || (is_object x && fields_ok x p')
      end
  end.

(** The documents of the data model: an object in which [agents],
    [agents.defaults] and [agents.defaults.sandbox], where present, hold a
    sub-object (or a falsy placeholder). *)
Definition valid_document (D : val) : bool :=
  is_object D && fields_ok D sandbox_path.

(** A value that is truthy and no object: [true], a number other than zero
    and NaN, a string that is not empty. *)
Definition truthy_primitive (x : val) : bool :=
  to_boolean x && negb (is_object x).

(** The names of the own properties of an object, in their order. *)
Definition own_keys (v : val) : list string :=
  match v with
  | VArr _ ps | VObj ps => map fst ps
  | _ => []
  end.

(** A key list after a store under [k]: as it was when [k] is in it, with
    [k] at the end otherwise. *)
Definition add_key (k : string) (ks : list string) : list string :=
  if decide (k ∈ ks) then ks else ks ++ [k].

(** The names the script stores under, by the path of the object that
    receives them, in the order of the stores. *)
Definition new_keys (q : list string) : list string :=
  if decide (q = []) then ["agents"]
  else if decide (q = ["agents"]) then ["defaults"]
  else if decide (q = ["agents"; "defaults"]) then ["sandbox"; "workspace"]
  else if decide (q = sandbox_path) then ["workspaceRoot"]
  else [].

(** *** JSON.stringify(config, null, 2) *)

Definition dquote : string := String (ascii_of_nat 34) "".
Definition newline : string := String (ascii_of_nat 10) "".

Definition hex_digit (n : nat) : ascii :=
  ascii_of_nat (if n <? 10 then 48 + n else 87 + n)%nat.

(** [QuoteJSONString] on one code unit: the two-character escapes, a
    [\u00XX] escape for the other control characters, the unit itself
    otherwise. *)
Definition escape_char (c : ascii) : string :=
  let n := nat_of_ascii c in
  if (n =? 34)%nat then "\" +:+ dquote
  else if (n =? 92)%nat then "\\"
  else if (n =? 8)%nat then "\b"
  else if (n =? 9)%nat then "\t"
  else if (n =? 10)%nat then "\n"
  else if (n =? 12)%nat then "\f"
  else if (n =? 13)%nat then "\r"
  else if (n <? 32)%nat then
    "\u00" +:+ String (hex_digit (n / 16)) (String (hex_digit (n mod 16)) "")
  else String c "".

Fixpoint escape (s : string) : string :=
  match s with
  | EmptyString => ""
  | String c s' => escape_char c +:+ escape s'
  end.

Definition quote (s : string) : string := dquote +:+ escape s +:+ dquote.

Fixpoint join (sep : string) (parts : list string) : string :=
  match parts with
  | [] => ""
  | [x] => x
  | x :: rest => x +:+ sep +:+ join sep rest
  end.

(** The gap of the call: two spaces. *)
Definition gap : string := "  ".

Definition wrap (opening closing indent : string) (parts : list string)
  : string :=
  match parts with
  | [] => opening +:+ closing
  | _ =>
      let inner := indent +:+ gap in
      opening +:+ newline +:+ inner
        +:+ join ("," +:+ newline +:+ inner) parts
        +:+ newline +:+ indent +:+ closing
  end.

(** [SerializeJSONProperty] at the indentation [indent]; [None] is the
    [undefined] it gives for [undefined].  A property whose value serializes
    to [undefined] is left out of an object and written [null] in an array;
    an array's named properties are not written. *)
Fixpoint serialize (indent : string) (v : val) : option string :=
  match v with
  | VUndefined => None
  | VNull => Some "null"
  | VBool b => Some (if b then "true" else "false")
  | VNum n => Some (number_to_json n)
  | VStr s => Some (quote s)
  | VArr elems _ =>
      let items :=
        (fix items (es : list val) : list string :=
           match es with
           | [] => []
           | e :: es' =>
               default "null" (serialize (indent +:+ gap) e) :: items es'
           end) elems in
      Some (wrap "[" "]" indent items)
  | VObj ps =>
      let members :=
        (fix members (ps : props) : list string :=
           match ps with
           | [] => []
           | (k, x) :: ps' =>
               match serialize (indent +:+ gap) x with
               | Some s => (quote k +:+ ": " +:+ s) :: members ps'
               | None => members ps'
               end
           end) ps in
      Some (wrap "{" "}" indent members)
  end.

Definition json_stringify (v : val) : option string := serialize "" v.

(** *** The text of a document, as the JSON grammar has it

    What [JSON.stringify(v, null, 2)] is to produce, stated on the text and
    not by a program: [renders i v t] says that [t] is the JSON text of [v]
    when [v] stands at the indentation [i].  A scalar is its literal; a
    string is quoted, with every quote, backslash and control character
    escaped; an array or object that has something to write opens its
    bracket, puts each element or member on a line of its own, two spaces
    further in than [i] and separated by commas, and closes the bracket on a
    line at [i].  A member is the quoted key, a colon, one space, the value.
    Holes and [undefined] elements are written [null]; properties whose
    value is [undefined] and the named properties of an array are not
    written. *)

(** A character a JSON string holds as it is. *)
Definition plain_char (c : ascii) : bool :=
  let n := nat_of_ascii c in
  ((32 <=? n) && negb (n =? 34) && negb (n =? 92))%nat.

(** The characters with a two-character escape, and its second character:
    quote, backslash, and b, t, n, f, r for the control characters 8, 9, 10,
    12 and 13. *)
Definition short_escape (c : ascii) : option ascii :=
  let n := nat_of_ascii c in
  if (n =? 34)%nat then Some c
  else if (n =? 92)%nat then Some c
  else if (n =? 8)%nat then Some "b"%char
  else if (n =? 9)%nat then Some "t"%char
  else if (n =? 10)%nat then Some "n"%char
  else if (n =? 12)%nat then Some "f"%char
  else if (n =? 13)%nat then Some "r"%char
  else None.

(** The sixteen hexadecimal digits, in lower case. *)
Definition hex_char (n : nat) : ascii :=
  default "0"%char (String.get n "0123456789abcdef").

(** [escaped s t]: [t] is [s] as it stands between the quotes. *)
Inductive escaped : string -> string -> Prop :=
| escaped_end : escaped "" ""
| escaped_plain c s t :
    plain_char c = true -> escaped s t ->
    escaped (String c s) (String c t)
| escaped_short c e s t :
    short_escape c = Some e -> escaped s t ->
    escaped (String c s) (String "\"%char (String e t))
| escaped_unicode c s t :
    plain_char c = false -> short_escape c = None -> escaped s t ->
    escaped (String c s)
      ("\u00" +:+ String (hex_char (nat_of_ascii c / 16))
                   (String (hex_char (nat_of_ascii c mod 16)) t)).

Definition line_break : string := String "010"%char "".

Definition quoted (t : string) : string :=
  String "034"%char (t +:+ String "034"%char "").

(** Each item on a line of its own at the indentation [i], a comma after
    every item but the last. *)
Fixpoint item_lines (i : string) (items : list string) : string :=
  match items with
  | [] => ""
  | [x] => i +:+ x +:+ line_break
  | x :: rest => i +:+ x +:+ "," +:+ line_break +:+ item_lines i rest
  end.

(** A bracket with something in it: the opening bracket, the items two
    spaces further in than [i], the closing bracket at [i]. *)
Definition block (opening closing i : string) (items : list string)
  : string :=
  opening +:+ line_break +:+ item_lines (i +:+ "  ") items +:+ i +:+ closing.

Inductive renders : string -> val -> string -> Prop :=
| renders_null i : renders i VNull "null"
| renders_true i : renders i (VBool true) "true"
| renders_false i : renders i (VBool false) "false"
| renders_number i n : renders i (VNum n) (number_to_json n)
| renders_string i s t : escaped s t -> renders i (VStr s) (quoted t)
| renders_empty_array i xs : renders i (VArr [] xs) "[]"
| renders_array i e es xs items :
    renders_elements (i +:+ "  ") (e :: es) items ->
    renders i (VArr (e :: es) xs) (block "[" "]" i items)
| renders_empty_object i ps :
    renders_members (i +:+ "  ") ps [] -> renders i (VObj ps) "{}"
| renders_object i ps m ms :
    renders_members (i +:+ "  ") ps (m :: ms) ->
    renders i (VObj ps) (block "{" "}" i (m :: ms))
with renders_elements : string -> list val -> list string -> Prop :=
| elements_end i : renders_elements i [] []
| elements_hole i es items :
    renders_elements i es items ->
    renders_elements i (VUndefined :: es) ("null" :: items)
| elements_value i e es t items :
    renders i e t -> renders_elements i es items ->
    renders_elements i (e :: es) (t :: items)
with renders_members : string -> props -> list string -> Prop :=
| members_end i : renders_members i [] []
| members_skip i k ps ms :
    renders_members i ps ms ->
    renders_members i ((k, VUndefined) :: ps) ms
| members_member i k x kt t ps ms :
    escaped k kt -> renders i x t -> renders_members i ps ms ->
    renders_members i ((k, x) :: ps) ((quoted kt +:+ ": " +:+ t) :: ms).

Scheme renders_mutind := Minimality for renders Sort Prop
  with renders_elements_mutind := Minimality for renders_elements Sort Prop
  with renders_members_mutind := Minimality for renders_members Sort Prop.

(** The elements and the members of [serialize], by name. *)
Definition serialize_elements (i : string) (es : list val) : list string :=
  map (fun e => default "null" (serialize i e)) es.

Fixpoint serialize_members (i : string) (ps : props) : list string :=
  match ps with
  | [] => []
  | (k, x) :: ps' =>
      match serialize i x with
      | Some s => (quote k +:+ ": " +:+ s) :: serialize_members i ps'
      | None => serialize_members i ps'
      end
  end.

(** *** The script *)

Definition env_value (x : option string) : val :=
  match x with
  | Some s => VStr s
  | None => VUndefined
  end.

Definition default_config_path : string := "/root/.openclaw/openclaw.json".

(** Line 4 and line 5. *)
Definition config_path (env : gmap string string) : string :=
  or_default (env !! "OPENCLAW_CONFIG_PATH") default_config_path.

Definition host_workspace_root (env : gmap string string) : option string :=
  env !! "HOST_WORKSPACE_ROOT".

(** The module's top level, line by line. *)
Definition main (env : gmap string string) : script unit :=
  let configPath := config_path env in
  let hostWorkspaceRoot := host_workspace_root env in
  when (env_falsy hostWorkspaceRoot)
    (console_warn
       "HOST_WORKSPACE_ROOT not set. Skipping sandbox workspaceRoot injection.";;
     process_exit 0);;
  try_catch
    (found ← fs_existsSync configPath;
     when (negb found)
       (console_error ("Config file not found at " +:+ configPath) None;;
        process_exit 0);;
     configRaw ← fs_readFileSync configPath;
     config ← eval (evaluate configRaw);
     config ← eval (ensure_structure config);
     console_log
       ("Injecting sandbox.workspaceRoot = " +:+ template hostWorkspaceRoot);;
     config ← eval (inject_workspace_root (env_value hostWorkspaceRoot) config);
     console_log "Setting internal workspace = /workspace";;
     config ← eval (set_workspace config);
     fs_writeFileSync configPath (json_stringify config);;
     console_log "Config updated successfully.")
    (fun e =>
       console_error "Failed to update config:" (Some e);;
       process_exit 1).

(** A run of the process: the exit status (0 when the module runs to its
    end, 1 for an exception nothing catches) and the machine it leaves. *)
Record outcome := {
  exit_code : Z;
  final : machine;
}.

Definition start (files : gmap string node) : machine :=
  {| disk := files; console := []; fs_writes := [] |}.

Definition run (env : gmap string string) (files : gmap string node)
  : outcome :=
  let '(m, r) := main env (start files) in
  {| exit_code :=
       match r with
       | Next _ => 0
       | Raise _ => 1
       | Halt code => code
       end;
     final := m |}.

(** The outcome with the given status, disk, console and write calls. *)
Definition ended (code : Z) (files : gmap string node)
  (printed : list output) (written : list (string * string)) : outcome :=
  {| exit_code := code;
     final := {| disk := files; console := printed; fs_writes := written |} |}.

(** What the handler of line 46 prints. *)
Definition failure (e : exn) : output :=
  Error "Failed to update config:" (Some e).

End Script.

(** ** A reference engine

    Numbers are the integers, and evaluation reads the literal fragment of the
    expression grammar that a configuration file is written in: one value
    made of [null], [true], [false], [undefined], decimal integer literals
    below 2^53, quoted strings with the single-character escapes, arrays and
    objects with quoted or bare keys other than [__proto__] and other than
    the keys written in digits only (an engine lists those first, in
    ascending order, whatever their order in the text), trailing commas, and
    both kinds of comment.  A text outside the fragment is
    answered with a [SyntaxError]; so is a text whose first token stands on a
    later line than [return], where a line terminator ends the statement and
    the fragment says nothing.  The theorems below hold for every engine;
    this one serves to run the script on concrete files. *)

Inductive token :=
| TLBrace | TRBrace | TLBrack | TRBrack | TColon | TComma
| TLine
| TString (s : string)
| TNumber (z : Z)
| TIdent (s : string).

Inductive lex_state :=
| LxStart
| LxStr (q : ascii) (acc : string)
| LxEsc (q : ascii) (acc : string)
| LxMinus
| LxZero (negative : bool)
| LxNum (negative : bool) (acc : Z)
| LxId (acc : string)
| LxSlash
| LxLineComment
| LxBlockComment
| LxBlockStar.

Definition is_digit (c : ascii) : bool :=
  let n := nat_of_ascii c in ((48 <=? n) && (n <=? 57))%nat.

Definition digit_value (c : ascii) : Z := Z.of_nat (nat_of_ascii c - 48).

Definition is_ident_start (c : ascii) : bool :=
  let n := nat_of_ascii c in
  (((65 <=? n) && (n <=? 90)) || ((97 <=? n) && (n <=? 122))
   || (n =? 95) || (n =? 36))%nat.

Definition snoc (s : string) (c : ascii) : string := s +:+ String c "".

Definition number_token (negative : bool) (acc : Z) : token :=
  TNumber (if negative then - acc else acc)%Z.

(** The lexer outside a token. *)
Definition lex_start (c : ascii) : option (lex_state * list token) :=
  let n := nat_of_ascii c in
  if ((n =? 32) || (n =? 9))%nat then Some (LxStart, [])
  else if ((n =? 10) || (n =? 13))%nat then Some (LxStart, [TLine])
  else if (n =? 123)%nat then Some (LxStart, [TLBrace])
  else if (n =? 125)%nat then Some (LxStart, [TRBrace])
  else if (n =? 91)%nat then Some (LxStart, [TLBrack])
  else if (n =? 93)%nat then Some (LxStart, [TRBrack])
  else if (n =? 58)%nat then Some (LxStart, [TColon])
  else if (n =? 44)%nat then Some (LxStart, [TComma])
  else if ((n =? 34) || (n =? 39))%nat then Some (LxStr c "", [])
  else if (n =? 45)%nat then Some (LxMinus, [])
  else if (n =? 47)%nat then Some (LxSlash, [])
  else if (n =? 48)%nat then Some (LxZero false, [])
  else if is_digit c then Some (LxNum false (digit_value c), [])
  else if is_ident_start c then Some (LxId (String c ""), [])
  else None.

Definition unescape (c : ascii) : option ascii :=
  let n := nat_of_ascii c in
  if (n =? 110)%nat then Some (ascii_of_nat 10)
  else if (n =? 116)%nat then Some (ascii_of_nat 9)
  else if (n =? 114)%nat then Some (ascii_of_nat 13)
  else if (n =? 98)%nat then Some (ascii_of_nat 8)
  else if (n =? 102)%nat then Some (ascii_of_nat 12)
  else if ((n =? 34) || (n =? 39) || (n =? 92) || (n =? 47))%nat then Some c
  else None.

Definition lex_step (st : lex_state) (c : ascii)
  : option (lex_state * list token) :=
  let n := nat_of_ascii c in
  match st with
  | LxStart => lex_start c
  | LxStr q acc =>
      if Ascii.eqb c q then Some (LxStart, [TString acc])
      else if (n =? 92)%nat then Some (LxEsc q acc, [])
      else if ((n =? 10) || (n =? 13))%nat then None
      else Some (LxStr q (snoc acc c), [])
  | LxEsc q acc => c' ← unescape c; Some (LxStr q (snoc acc c'), [])
  | LxMinus =>
      if (n =? 48)%nat then Some (LxZero true, [])
      else if is_digit c then Some (LxNum true (digit_value c), [])
      else None
  | LxZero neg =>
      if is_digit c then None
      else
        '(st', ts) ← lex_start c;
        Some (st', number_token neg 0 :: ts)
  | LxNum neg acc =>
      if is_digit c then
        let acc' := (10 * acc + digit_value c)%Z in
        if (acc' <? 2 ^ 53)%Z then Some (LxNum neg acc', []) else None
      else
        '(st', ts) ← lex_start c;
        Some (st', number_token neg acc :: ts)
  | LxId acc =>
      if is_ident_start c || is_digit c then Some (LxId (snoc acc c), [])
      else
        '(st', ts) ← lex_start c;
        Some (st', TIdent acc :: ts)
  | LxSlash =>
      if (n =? 47)%nat then Some (LxLineComment, [])
      else if (n =? 42)%nat then Some (LxBlockComment, [])
      else None
  | LxLineComment =>
      if ((n =? 10) || (n =? 13))%nat then Some (LxStart, [TLine])
      else Some (LxLineComment, [])
  | LxBlockComment =>
      if (n =? 42)%nat then Some (LxBlockStar, [])
      else if ((n =? 10) || (n =? 13))%nat then Some (LxBlockComment, [TLine])
      else Some (LxBlockComment, [])
  | LxBlockStar =>
      if (n =? 47)%nat then Some (LxStart, [])
      else if (n =? 42)%nat then Some (LxBlockStar, [])
      else if ((n =? 10) || (n =? 13))%nat then Some (LxBlockComment, [TLine])
      else Some (LxBlockComment, [])
  end.

Definition lex_end (st : lex_state) : option (list token) :=
  match st with
  | LxStart | LxLineComment => Some []
  | LxZero neg => Some [number_token neg 0]
  | LxNum neg acc => Some [number_token neg acc]
  | LxId acc => Some [TIdent acc]
  | _ => None
  end.

Fixpoint lex (st : lex_state) (s : string) : option (list token) :=
  match s with
  | EmptyString => lex_end st
  | String c s' =>
      '(st', ts) ← lex_step st c;
      rest ← lex st' s';
      Some (ts ++ rest)
  end.

Definition is_line (t : token) : bool :=
  match t with
  | TLine => true
  | _ => false
  end.

(** A key written in digits only: an array index to the engine. *)
Fixpoint all_digits (s : string) : bool :=
  match s with
  | EmptyString => true
  | String c s' => is_digit c && all_digits s'
  end.

Definition index_like (k : string) : bool :=
  negb (String.eqb k "") && all_digits k.

(** The parser, on the tokens of a text; [fuel] bounds the nesting and the
    number of members, and the number of tokens is always enough. *)
Fixpoint parse_value (fuel : nat) (ts : list token)
  : option (value Z * list token) :=
  match fuel with
  | O => None
  | S fuel' =>
      match ts with
      | TIdent "null" :: r => Some (VNull, r)
      | TIdent "true" :: r => Some (VBool true, r)
      | TIdent "false" :: r => Some (VBool false, r)
      | TIdent "undefined" :: r => Some (VUndefined, r)
      | TNumber z :: r => Some (VNum z, r)
      | TString s :: r => Some (VStr s, r)
      | TLBrack :: r => parse_elements fuel' r []
      | TLBrace :: r => parse_members fuel' r []
      | _ => None
      end
  end
with parse_elements (fuel : nat) (ts : list token) (acc : list (value Z))
  : option (value Z * list token) :=
  match fuel with
  | O => None
  | S fuel' =>
      match ts with
      | TRBrack :: r => Some (VArr acc [], r)
      | _ =>
          '(v, r) ← parse_value fuel' ts;
          match r with
          | TComma :: r' => parse_elements fuel' r' (acc ++ [v])
          | TRBrack :: r' => Some (VArr (acc ++ [v]) [], r')
          | _ => None
          end
      end
  end
with parse_members (fuel : nat) (ts : list token)
  (acc : list (string * value Z)) : option (value Z * list token) :=
  match fuel with
  | O => None
  | S fuel' =>
      match ts with
      | TRBrace :: r => Some (VObj acc, r)
      | TString k :: TColon :: r | TIdent k :: TColon :: r =>
          if String.eqb k "__proto__" || index_like k then None
          else
            '(v, r') ← parse_value fuel' r;
            match r' with
            | TComma :: r'' => parse_members fuel' r'' (store_prop k v acc)
            | TRBrace :: r'' => Some (VObj (store_prop k v acc), r'')
            | _ => None
            end
      | _ => None
      end
  end.

Definition reference_evaluate (src : string) : completion (value Z) :=
  match lex LxStart src with
  | None => Throw SyntaxError
  | Some ts =>
      match filter (fun t => negb (is_line t)) ts with
      | [] => Normal VUndefined
      | ts' =>
          if from_option is_line false (head ts) then Throw SyntaxError
          else
            match parse_value (S (List.length ts')) ts' with
            | Some (v, []) => Normal v
            | _ => Throw SyntaxError
            end
      end
  end.

#[global] Instance reference_engine : Engine := {|
  number := Z;
  number_to_boolean := fun z => negb (z =? 0)%Z;
  number_to_json := fun z => NilZero.string_of_int (Z.to_int z);
  evaluate := reference_evaluate;
|}.


(** ** Sample runs

    Concrete inputs, run on the reference engine. *)

(** An environment that sets the host workspace root only. *)
Definition root_env (R : string) : gmap string string :=
  {[ "HOST_WORKSPACE_ROOT" := R ]}.

(** A disk that holds one readable and writable file, at the default path. *)
Definition disk_with (content : string) : gmap string node :=
  {[ default_config_path := RegularFile content true true ]}.

(** [{agents: {defaults: {foo: 1}}}] *)
Definition foo_doc : value Z :=
  VObj [("agents", VObj [("defaults", VObj [("foo", VNum 1%Z)])])].

(** [{agents: {defaults: {foo: 1, sandbox: {}}}}] *)
Definition foo_doc_normalized : value Z :=
  VObj [("agents",
         VObj [("defaults", VObj [("foo", VNum 1%Z); ("sandbox", VObj [])])])].

(** [{agents: {defaults: {sandbox: false}}}] *)
Definition sandbox_off_doc : value Z :=
  VObj [("agents", VObj [("defaults", VObj [("sandbox", VBool false)])])].

(** [{agents: {defaults: {sandbox: {}}}}] *)
Definition sandbox_empty_doc : value Z :=
  VObj [("agents", VObj [("defaults", VObj [("sandbox", VObj [])])])].

(** [{agents: {defaults: {sandbox: {workspaceRoot: "/data"},
    workspace: "/workspace"}}}]: the empty document, patched. *)
Definition sandbox_patched_doc : value Z :=
  VObj [("agents",
         VObj [("defaults",
                VObj [("sandbox", VObj [("workspaceRoot", VStr "/data")]);
                      ("workspace", VStr "/workspace")])])].

(** [{agents: [1]}], and what the patch makes of it: the array with a
    property [defaults]. *)
Definition agents_array_doc : value Z :=
  VObj [("agents", VArr [VNum 1%Z] [])].

Definition agents_array_patched : value Z :=
  VObj [("agents",
         VArr [VNum 1%Z]
           [("defaults",
             VObj [("sandbox", VObj [("workspaceRoot", VStr "/data")]);
                   ("workspace", VStr "/workspace")])])].

(** A text with a single quote wherever the JSON text has a double one. *)
Fixpoint requote (s : string) : string :=
  match s with
  | EmptyString => EmptyString
  | String c s' =>
      String (if (nat_of_ascii c =? 39)%nat then ascii_of_nat 34 else c)
        (requote s')
  end.

Definition lines (ls : list string) : string := join newline ls.

(** * Properties *)

(** A run that ended without printing the last line of the script. *)
Ltac no_success :=
  simpl; split; [lia|];
  let Hin := fresh in
  intros Hin; unfold failure in Hin;
  rewrite ?elem_of_cons, elem_of_nil in Hin;
  intuition discriminate.

Section Properties.
Context `{E : Engine}.

#[local] Abbreviation val := (value number).
#[local] Abbreviation props := (list (string * value number)).

(** ** Property lists *)

Lemma lookup_store_eq k x (ps : props) :
  lookup_prop k (store_prop k x ps) = Some x.
Proof.
  induction ps as [|[j y] ps IH]; simpl.
  - by rewrite String.eqb_refl.
  - destruct (String.eqb k j) eqn:Hkj; simpl.
    + by rewrite String.eqb_refl.
    + by rewrite Hkj.
Qed.

Lemma lookup_store_ne k j x (ps : props) :
  String.eqb j k = false → lookup_prop j (store_prop k x ps) = lookup_prop j ps.
Proof.
  intros Hjk. induction ps as [|[i y] ps IH]; simpl.
  - by rewrite Hjk.
  - destruct (String.eqb k i) eqn:Hki; simpl.
    + apply String.eqb_eq in Hki as <-. by rewrite Hjk.
    + by rewrite IH.
Qed.

Lemma store_same k x (ps : props) :
  lookup_prop k ps = Some x → store_prop k x ps = ps.
Proof.
  induction ps as [|[j y] ps IH]; simpl; [done|].
  destruct (String.eqb k j) eqn:Hkj.
  - apply String.eqb_eq in Hkj as ->. by intros [= ->].
  - intros H. by rewrite IH.
Qed.

(** ** Reads and stores through a path *)

Lemma own_prop_is_object (v x : val) k :
  own_prop v k = Some x → is_object v = true.
Proof. by destruct v. Qed.

Lemma get_prop_own (v x : val) k :
  own_prop v k = Some x → get_prop v k = Normal x.
Proof. destruct v; simpl; try done; by intros ->. Qed.

Lemma own_prop_write_back_eq (v o : val) k :
  is_object v = true → own_prop (write_back v k o) k = Some o.
Proof. destruct v; simpl; try done; intros _; apply lookup_store_eq. Qed.

Lemma own_prop_write_back_ne (v o : val) k j :
  String.eqb j k = false → own_prop (write_back v k o) j = own_prop v j.
Proof. intros H. destruct v; simpl; try done; by apply lookup_store_ne. Qed.

Lemma write_back_same (v o : val) k :
  own_prop v k = Some o → write_back v k o = v.
Proof. destruct v; simpl; try done; intros H; by rewrite store_same. Qed.

Lemma set_prop_write_back (v v' x : val) k :
  set_prop v k x = Normal v' → is_object v = true ∧ v' = write_back v k x.
Proof. destruct v; simpl; try done; by intros [= <-]. Qed.

Lemma own_path_app (v : val) p q :
  own_path v (p ++ q) = own_path v p ≫= λ x, own_path x q.
Proof.
  revert v. induction p as [|k p IH]; intros v; simpl; [done|].
  destruct (own_prop v k); simpl; [apply IH|done].
Qed.

Lemma get_path_own (v x : val) p :
  own_path v p = Some x → get_path v p = Normal x.
Proof.
  revert v. induction p as [|k p IH]; intros v; simpl.
  - by intros [= ->].
  - destruct (own_prop v k) as [o|] eqn:Ho; simpl; [|done].
    intros Hx. rewrite (get_prop_own _ _ _ Ho). simpl. by apply IH.
Qed.

(** A read that gives something other than [undefined] went through own
    properties. *)
Lemma get_path_defined_own (v x : val) p :
  get_path v p = Normal x → x ≠ VUndefined → own_path v p = Some x.
Proof.
  revert v. induction p as [|k p IH]; intros v; simpl.
  - by intros [= ->].
  - intros Hget Hx.
    destruct (own_prop v k) as [o|] eqn:Ho; simpl.
    + rewrite (get_prop_own _ _ _ Ho) in Hget. by apply IH.
    + assert (get_prop v k = Normal VUndefined ∨ get_prop v k = Throw TypeError)
        as [Hg|Hg].
      { destruct v; simpl in *; auto; rewrite Ho; auto. }
      * rewrite Hg in Hget. simpl in Hget.
        destruct p; simpl in Hget; [by inversion Hget|done].
      * by rewrite Hg in Hget.
Qed.

Lemma truthy_defined (x : val) : to_boolean x = true → x ≠ VUndefined.
Proof. by intros H ->. Qed.

Lemma is_prefix_app p q : is_prefix p q = true → ∃ r, q = p ++ r.
Proof.
  revert q. induction p as [|k p IH]; intros q; simpl.
  - by exists q.
  - destruct q as [|j q]; [done|].
    intros [Hk Hp]%andb_prop. apply String.eqb_eq in Hk as ->.
    destruct (IH _ Hp) as [r ->]. by exists r.
Qed.

Lemma is_prefix_refl p : is_prefix p p = true.
Proof. induction p; simpl; [done|]. by rewrite String.eqb_refl. Qed.

(** After [v.q.k = x], the field holds [x]. *)
Lemma assign_own_path_same (v v' x : val) q k :
  assign v q k x = Normal v' → own_path v' (q ++ [k]) = Some x.
Proof.
  revert v v'. induction q as [|k1 q IH]; intros v v'; simpl.
  - intros [Hobj ->]%set_prop_write_back.
    by rewrite own_prop_write_back_eq.
  - destruct (get_prop v k1) as [o|] eqn:Ho; simpl; [|done].
    destruct (assign o q k x) as [o'|] eqn:Ha; simpl; [|done].
    intros [= <-].
    assert (is_object v = true) as Hobj.
    { destruct v; simpl in *; try done;
        inversion Ho; subst; by destruct q. }
    rewrite own_prop_write_back_eq by done. simpl. by eapply IH.
Qed.

(** [v.q.k = x] leaves what is not on its way, and not below it. *)
Lemma assign_own_path_other (v v' x : val) q k p :
  assign v q k x = Normal v' →
  comparable p (q ++ [k]) = false →
  own_path v' p = own_path v p.
Proof.
  revert v v' p. induction q as [|k1 q IH]; intros v v' p; simpl.
  - intros [Hobj ->]%set_prop_write_back Hp.
    destruct p as [|j p]; [done|]. simpl.
    unfold comparable in Hp. simpl in Hp.
    rewrite own_prop_write_back_ne; [done|].
    destruct (String.eqb j k) eqn:Hjk; [|done].
    apply String.eqb_eq in Hjk as ->. rewrite String.eqb_refl in Hp.
    simpl in Hp. by destruct p.
  - destruct (get_prop v k1) as [o|] eqn:Ho; simpl; [|done].
    destruct (assign o q k x) as [o'|] eqn:Ha; simpl; [|done].
    intros [= <-] Hp.
    destruct p as [|j p]; [done|]. simpl.
    destruct (String.eqb j k1) eqn:Hj.
    + apply String.eqb_eq in Hj as ->.
      assert (own_prop v k1 = Some o) as Hown.
      { destruct v; simpl in *; try done; inversion Ho; subst;
          try by destruct q.
        all: destruct (lookup_prop k1 _); simpl in *; [done|by destruct q]. }
      rewrite own_prop_write_back_eq by (by eapply own_prop_is_object).
      rewrite Hown. simpl. eapply IH; [done|].
      unfold comparable in *. simpl in Hp.
      by rewrite String.eqb_refl in Hp.
    + by rewrite own_prop_write_back_ne.
Qed.

(** Storing what the field already holds changes nothing. *)
Lemma assign_same (v x : val) q k :
  own_path v (q ++ [k]) = Some x → assign v q k x = Normal v.
Proof.
  revert v. induction q as [|k1 q IH]; intros v; simpl.
  - destruct (own_prop v k) as [y|] eqn:Hy; simpl; [|done].
    intros [= ->]. destruct v; simpl in *; try done; by rewrite store_same.
  - destruct (own_prop v k1) as [o|] eqn:Ho; simpl; [|done].
    intros Hx. rewrite (get_prop_own _ _ _ Ho). simpl.
    rewrite (IH _ Hx). simpl. by rewrite write_back_same.
Qed.

(** A store below an object that is there succeeds. *)
Lemma assign_ok (v o x : val) q k :
  own_path v q = Some o → is_object o = true →
  ∃ v', assign v q k x = Normal v'.
Proof.
  revert v. induction q as [|k1 q IH]; intros v; simpl.
  - intros [= ->] Hobj. destruct o; simpl in *; try done; eauto.
  - destruct (own_prop v k1) as [o1|] eqn:Ho; simpl; [|done].
    intros Hq Hobj. rewrite (get_prop_own _ _ _ Ho). simpl.
    destruct (IH _ Hq Hobj) as [o1' ->]. simpl. eauto.
Qed.

(** A store below a primitive is a [TypeError]. *)
Lemma assign_primitive (v o x : val) q k :
  own_path v q = Some o → is_object o = false →
  assign v q k x = Throw TypeError.
Proof.
  revert v. induction q as [|k1 q IH]; intros v; simpl.
  - intros [= ->] Hobj. by destruct o.
  - destruct (own_prop v k1) as [o1|] eqn:Ho; simpl; [|done].
    intros Hq Hobj. rewrite (get_prop_own _ _ _ Ho). simpl.
    by rewrite (IH _ Hq Hobj).
Qed.

(** ** The guards of lines 24-26 *)

Lemma get_path_snoc (v o : val) q k :
  own_path v q = Some o →
  get_path v (q ++ [k]) = get_prop o k.
Proof.
  revert v. induction q as [|k1 q IH]; intros v; simpl.
  - intros [= ->]. by destruct (get_prop o k).
  - destruct (own_prop v k1) as [o1|] eqn:Ho; simpl; [|done].
    intros Hq. rewrite (get_prop_own _ _ _ Ho). simpl. by apply IH.
Qed.

Lemma ensure_cases (v v' : val) q k :
  ensure v q k = Normal v' →
  ∃ x, get_path v (q ++ [k]) = Normal x ∧
    ((to_boolean x = true ∧ v' = v) ∨
     (to_boolean x = false ∧ assign v q k (VObj []) = Normal v')).
Proof.
  unfold ensure. destruct (get_path v (q ++ [k])) as [x|] eqn:Hx; simpl; [|done].
  destruct (to_boolean x) eqn:Hb; intros H; exists x; split; auto.
  left. split; [done|]. by inversion H.
Qed.

(** A guard whose field is truthy does nothing. *)
Lemma ensure_truthy (v x : val) q k :
  own_path v (q ++ [k]) = Some x → to_boolean x = true →
  ensure v q k = Normal v.
Proof.
  intros Hx Hb. unfold ensure. rewrite (get_path_own _ _ _ Hx). simpl.
  by rewrite Hb.
Qed.

(** The field a guard has passed holds what it held if that was truthy, and
    a new empty object otherwise. *)
Lemma ensure_result (v v' : val) q k :
  ensure v q k = Normal v' →
  ∃ x, get_path v (q ++ [k]) = Normal x ∧
       own_path v' (q ++ [k]) = Some (if to_boolean x then x else VObj []).
Proof.
  intros (x & Hx & [[Hb ->]|[Hb Ha]])%ensure_cases; exists x; rewrite Hb.
  - split; [done|]. apply get_path_defined_own; [done|by apply truthy_defined].
  - split; [done|]. by eapply assign_own_path_same.
Qed.

(** A guard keeps every own path that does not lead to its field. *)
Lemma ensure_frame (v v' y : val) q k p :
  ensure v q k = Normal v' →
  own_path v p = Some y →
  is_prefix p (q ++ [k]) = false →
  own_path v' p = Some y.
Proof.
  intros (x & Hx & [[Hb ->]|[Hb Ha]])%ensure_cases Hy Hp; [done|].
  destruct (is_prefix (q ++ [k]) p) eqn:Hqp.
  - exfalso. apply is_prefix_app in Hqp as [r ->].
    rewrite own_path_app in Hy.
    destruct (own_path v (q ++ [k])) as [x0|] eqn:Hx0; simpl in Hy; [|done].
    rewrite (get_path_own _ _ _ Hx0) in Hx. inversion Hx; subst x0.
    destruct r as [|j r].
    + rewrite app_nil_r in Hp. by rewrite is_prefix_refl in Hp.
    + simpl in Hy. destruct (own_prop x j) eqn:Hj; simpl in Hy; [|done].
      apply own_prop_is_object in Hj. by destruct x.
  - rewrite (assign_own_path_other _ _ _ _ _ p Ha); [done|].
    unfold comparable. by rewrite Hp, Hqp.
Qed.

(** Below an object that is there, a guard succeeds. *)
Lemma ensure_ok (v o : val) q k :
  own_path v q = Some o → is_object o = true →
  ∃ v', ensure v q k = Normal v' ∧
        own_path v' (q ++ [k]) =
          Some (let x := default VUndefined (own_prop o k) in
                if to_boolean x then x else VObj []).
Proof.
  intros Hq Hobj.
  assert (get_path v (q ++ [k]) = Normal (default VUndefined (own_prop o k)))
    as Hget.
  { rewrite (get_path_snoc _ _ _ _ Hq). by destruct o. }
  assert (∃ v', ensure v q k = Normal v') as [v' Hv'].
  { unfold ensure. rewrite Hget. simpl.
    destruct (to_boolean _); [eauto|]. by eapply assign_ok. }
  exists v'. split; [done|].
  destruct (ensure_result _ _ _ _ Hv') as (x & Hx & Hres).
  rewrite Hget in Hx. inversion Hx; subst x. exact Hres.
Qed.

(** Below a truthy primitive, a guard is a [TypeError]. *)
Lemma ensure_primitive (v o : val) q k :
  own_path v q = Some o → truthy_primitive o = true →
  ensure v q k = Throw TypeError.
Proof.
  intros Hq [Hb Hobj]%andb_prop. apply negb_true_iff in Hobj.
  unfold ensure. rewrite (get_path_snoc _ _ _ _ Hq).
  destruct o; simpl in *; try done;
    by rewrite (assign_primitive _ _ _ _ _ Hq).
Qed.

(** What a valid field turns into under its guard is an object, valid
    along the rest of the path. *)
Lemma fields_ok_step (o : val) k p :
  fields_ok o (k :: p) = true →
  let x := default VUndefined (own_prop o k) in
  let y := if to_boolean x then x else VObj [] in
  is_object y = true ∧ fields_ok y p = true.
Proof.
  simpl. destruct (own_prop o k) as [x|]; simpl.
  - destruct (to_boolean x); simpl.
    + by intros [??]%andb_prop.
    + intros _. split; [done|]. by destruct p.
  - intros _. split; [done|]. by destruct p.
Qed.

Lemma is_prefix_app_r p q r :
  is_prefix p (q ++ r) = false → is_prefix p q = false.
Proof.
  revert q. induction p as [|k p IH]; intros q; simpl; [done|].
  destruct q as [|j q]; simpl; [done|].
  destruct (String.eqb k j); simpl; [apply IH|done].
Qed.

(** Whatever lies below a path lies below an object. *)
Lemma own_path_through (v x : val) p k r :
  own_path v (p ++ k :: r) = Some x →
  ∃ o, own_path v p = Some o ∧ is_object o = true.
Proof.
  rewrite own_path_app. destruct (own_path v p) as [o|]; simpl; [|done].
  destruct (own_prop o k) eqn:Hk; simpl; [|done].
  intros _. exists o. split; [done|]. by eapply own_prop_is_object.
Qed.

Lemma object_truthy (o : val) : is_object o = true → to_boolean o = true.
Proof. by destruct o. Qed.

(** A store through a path, seen from an object on the way. *)
Lemma assign_below (v v' o x : val) q1 q2 k :
  own_path v q1 = Some o →
  assign v (q1 ++ q2) k x = Normal v' →
  ∃ o', assign o q2 k x = Normal o' ∧ own_path v' q1 = Some o'.
Proof.
  revert v v'. induction q1 as [|k1 q1 IH]; intros v v'; simpl.
  - intros [= ->] Ha. eauto.
  - destruct (own_prop v k1) as [o1|] eqn:Ho; simpl; [|done].
    intros Hq. rewrite (get_prop_own _ _ _ Ho). simpl.
    destruct (assign o1 (q1 ++ q2) k x) as [o1'|] eqn:Ha; simpl; [|done].
    intros [= <-]. destruct (IH _ _ Hq Ha) as (o' & Ho' & Hq').
    exists o'. split; [done|].
    rewrite own_prop_write_back_eq by (by eapply own_prop_is_object).
    done.
Qed.

(** ** Lines 24-26 as a whole *)

Lemma ensure_structure_inv (D D' : val) :
  ensure_structure D = Normal D' →
  ∃ c1 c2, ensure D [] "agents" = Normal c1 ∧
           ensure c1 ["agents"] "defaults" = Normal c2 ∧
           ensure c2 ["agents"; "defaults"] "sandbox" = Normal D'.
Proof.
  unfold ensure_structure.
  destruct (ensure D [] "agents") as [c1|] eqn:H1; simpl; [|done].
  destruct (ensure c1 ["agents"] "defaults") as [c2|] eqn:H2; simpl; [|done].
  intros H3. by exists c1, c2.
Qed.

Lemma ensure_structure_frame (D D' y : val) p :
  ensure_structure D = Normal D' →
  own_path D p = Some y →
  is_prefix p sandbox_path = false →
  own_path D' p = Some y.
Proof.
  intros (c1 & c2 & H1 & H2 & H3)%ensure_structure_inv Hy Hp.
  eapply ensure_frame; [exact H3| |exact Hp].
  eapply ensure_frame; [exact H2| |].
  - eapply ensure_frame; [exact H1|exact Hy|].
    by apply (is_prefix_app_r p ["agents"] ["defaults"; "sandbox"]).
  - by apply (is_prefix_app_r p ["agents"; "defaults"] ["sandbox"]).
Qed.

Lemma ensure_structure_ok (D : val) :
  valid_document D = true →
  ∃ c s, ensure_structure D = Normal c ∧
         own_path c sandbox_path = Some s ∧ is_object s = true.
Proof.
  intros [Hobj Hok]%andb_prop. unfold sandbox_path in *.
  destruct (ensure_ok D D [] "agents" eq_refl Hobj) as (c1 & H1 & Hc1).
  destruct (fields_ok_step _ _ _ Hok) as [Ho1 Hok1]. simpl in Hc1.
  destruct (ensure_ok c1 _ ["agents"] "defaults" Hc1 Ho1) as (c2 & H2 & Hc2).
  destruct (fields_ok_step _ _ _ Hok1) as [Ho2 Hok2].
  destruct (ensure_ok c2 _ ["agents"; "defaults"] "sandbox" Hc2 Ho2)
    as (c3 & H3 & Hc3).
  destruct (fields_ok_step _ _ _ Hok2) as [Ho3 _].
  exists c3. eexists. split; [|split; [exact Hc3|exact Ho3]].
  unfold ensure_structure. rewrite H1. simpl. rewrite H2. simpl. exact H3.
Qed.

(** ** Lines 24-36 as a whole *)

Lemma apply_patch_inv R (D D' : val) :
  apply_patch R D = Normal D' →
  ∃ c1 c2, ensure_structure D = Normal c1 ∧
           inject_workspace_root (VStr R) c1 = Normal c2 ∧
           set_workspace c2 = Normal D'.
Proof.
  unfold apply_patch.
  destruct (ensure_structure D) as [c1|] eqn:H1; simpl; [|done].
  destruct (inject_workspace_root (VStr R) c1) as [c2|] eqn:H2; simpl;
    [|done].
  intros H3. by exists c1, c2.
Qed.

Lemma patch_ok (x D : val) :
  valid_document D = true →
  ∃ c1 c2 c3, ensure_structure D = Normal c1 ∧
              inject_workspace_root x c1 = Normal c2 ∧
              set_workspace c2 = Normal c3.
Proof.
  intros (c1 & s & Hc1 & Hs & Hobj)%ensure_structure_ok.
  destruct (assign_ok c1 s x sandbox_path "workspaceRoot" Hs Hobj)
    as [c2 Hc2].
  pose proof (assign_own_path_same _ _ _ _ _ Hc2) as Hroot.
  destruct (own_path_through c2 x ["agents"; "defaults"] "sandbox"
              ["workspaceRoot"] Hroot) as (d & Hd & Hdobj).
  destruct (assign_ok c2 d (VStr "/workspace") ["agents"; "defaults"]
              "workspace" Hd Hdobj) as [c3 Hc3].
  by exists c1, c2, c3.
Qed.

Lemma apply_patch_ok R (D : val) :
  valid_document D = true → ∃ D', apply_patch R D = Normal D'.
Proof.
  intros (c1 & c2 & c3 & H1 & H2 & H3)%(patch_ok (VStr R)).
  exists c3. unfold apply_patch. rewrite H1. simpl. by rewrite H2.
Qed.

Lemma apply_patch_fields R (D D' : val) :
  apply_patch R D = Normal D' →
  own_path D' workspace_root_path = Some (VStr R) ∧
  own_path D' workspace_path = Some (VStr "/workspace").
Proof.
  intros (c1 & c2 & H1 & H2 & H3)%apply_patch_inv. split.
  - rewrite (assign_own_path_other _ _ _ _ _ workspace_root_path H3)
      by reflexivity.
    by apply (assign_own_path_same _ _ _ _ _ H2).
  - by apply (assign_own_path_same _ _ _ _ _ H3).
Qed.

Lemma apply_patch_frame R (D D' y : val) p :
  apply_patch R D = Normal D' →
  off_patch p = true →
  own_path D p = Some y →
  own_path D' p = Some y.
Proof.
  intros (c1 & c2 & H1 & H2 & H3)%apply_patch_inv
    [Hroot Hws]%andb_prop Hy.
  apply negb_true_iff in Hroot, Hws.
  rewrite (assign_own_path_other _ _ _ _ _ p H3) by exact Hws.
  rewrite (assign_own_path_other _ _ _ _ _ p H2) by exact Hroot.
  eapply ensure_structure_frame; [exact H1|exact Hy|].
  apply orb_false_elim in Hroot as [Hroot _].
  by apply (is_prefix_app_r p sandbox_path ["workspaceRoot"]).
Qed.

(** A document that is not valid makes the patch throw a [TypeError]: in
    one of the guards, or, when only [sandbox] holds a primitive, in the
    store of line 31. *)
Lemma ensure_not_object (D : val) :
  is_object D = false → ensure D [] "agents" = Throw TypeError.
Proof. by destruct D. Qed.

Lemma patch_throws (x D : val) :
  is_object D = false ∨
  (∃ q y, q ∈ [["agents"]; ["agents"; "defaults"]; sandbox_path] ∧
          own_path D q = Some y ∧ truthy_primitive y = true) →
  ensure_structure D = Throw TypeError ∨
  (ensure_structure D = Normal D ∧
   inject_workspace_root x D = Throw TypeError).
Proof.
  intros [Hobj|(q & y & Hq & Hy & Hprim)].
  { left. unfold ensure_structure. by rewrite ensure_not_object. }
  pose proof Hprim as [Hb _]%andb_prop.
  unfold ensure_structure.
  rewrite !elem_of_cons, elem_of_nil in Hq.
  destruct Hq as [->|[->|[->|[]]]].
  - left. rewrite (ensure_truthy D y [] "agents" Hy Hb). simpl.
    by rewrite (ensure_primitive D y ["agents"] "defaults" Hy Hprim).
  - destruct (own_path_through D y ["agents"] "defaults" [] Hy)
      as (a & Ha & Hao).
    left.
    rewrite (ensure_truthy D a [] "agents" Ha (object_truthy _ Hao)). simpl.
    rewrite (ensure_truthy D y ["agents"] "defaults" Hy Hb). simpl.
    by rewrite (ensure_primitive D y ["agents"; "defaults"] "sandbox"
                  Hy Hprim).
  - destruct (own_path_through D y ["agents"] "defaults" ["sandbox"] Hy)
      as (a & Ha & Hao).
    destruct (own_path_through D y ["agents"; "defaults"] "sandbox" [] Hy)
      as (d & Hd & Hdo).
    right.
    rewrite (ensure_truthy D a [] "agents" Ha (object_truthy _ Hao)). simpl.
    rewrite (ensure_truthy D d ["agents"] "defaults" Hd
               (object_truthy _ Hdo)). simpl.
    rewrite (ensure_truthy D y ["agents"; "defaults"] "sandbox" Hy Hb).
    split; [done|].
    apply andb_prop in Hprim as [_ Hno]. apply negb_true_iff in Hno.
    by apply (assign_primitive D y x sandbox_path "workspaceRoot").
Qed.

(** ** The run, path by path *)

Lemma run_eq env files :
  run env files =
  let path := config_path env in
  let root := host_workspace_root env in
  let injecting :=
    Log ("Injecting sandbox.workspaceRoot = " +:+ template root) in
  let setting := Log "Setting internal workspace = /workspace" in
  if env_falsy root then
    ended 0 files
      [Warn "HOST_WORKSPACE_ROOT not set. Skipping sandbox workspaceRoot injection."]
      []
  else
    match files !! path with
    | None =>
        ended 0 files [Error ("Config file not found at " +:+ path) None] []
    | Some Directory => ended 1 files [failure (SystemError "EISDIR")] []
    | Some (RegularFile _ false _) =>
        ended 1 files [failure (SystemError "EACCES")] []
    | Some (RegularFile raw true w) =>
        match evaluate raw with
        | Throw e => ended 1 files [failure e] []
        | Normal D =>
            match ensure_structure D with
            | Throw e => ended 1 files [failure e] []
            | Normal c1 =>
                match inject_workspace_root (env_value root) c1 with
                | Throw e => ended 1 files [injecting; failure e] []
                | Normal c2 =>
                    match set_workspace c2 with
                    | Throw e =>
                        ended 1 files [injecting; setting; failure e] []
                    | Normal c3 =>
                        match json_stringify c3 with
                        | None =>
                            ended 1 files
                              [injecting; setting; failure TypeError] []
                        | Some text =>
                            if w then
                              ended 0
                                (<[path := RegularFile text true true]> files)
                                [injecting; setting;
                                 Log "Config updated successfully."]
                                [(path, text)]
                            else
                              ended 1 files
                                [injecting; setting;
                                 failure (SystemError "EACCES")]
                                [(path, text)]
                        end
                    end
                end
            end
        end
    end.
Proof.
  unfold run, main. cbv zeta.
  destruct (env_falsy (host_workspace_root env)) eqn:Hroot; [reflexivity|].
  unfold mbind, script_mbind, script_bind, try_catch, when, start; simpl.
  destruct (files !! config_path env) as [[raw [] w|]|] eqn:Hfile;
    unfold fs_existsSync, fs_readFileSync; simpl; rewrite ?Hfile; simpl;
    try reflexivity.
  destruct (evaluate raw) as [D|e]; simpl; [|reflexivity].
  destruct (ensure_structure D) as [c1|e]; simpl; [|reflexivity].
  destruct (inject_workspace_root _ c1) as [c2|e]; simpl; [|reflexivity].
  destruct (set_workspace c2) as [c3|e]; simpl; [|reflexivity].
  unfold fs_writeFileSync.
  destruct (json_stringify c3) as [text|]; simpl; [|reflexivity].
  rewrite Hfile. by destruct w.
Qed.

(** A guard whose field is not there, or falsy, stores the empty object. *)
Lemma ensure_fires (v v' : val) q k :
  ensure v q k = Normal v' →
  (∀ x, own_path v (q ++ [k]) = Some x → to_boolean x = false) →
  assign v q k (VObj []) = Normal v'.
Proof.
  intros (x & Hx & [[Hb ->]|[_ Ha]])%ensure_cases Hfalsy; [|done].
  apply get_path_defined_own in Hx; [|by apply truthy_defined].
  apply Hfalsy in Hx. congruence.
Qed.

(** A guard after which its field has something below it did nothing. *)
Lemma ensure_below (v v' y : val) q k j r :
  ensure v q k = Normal v' →
  own_path v' (q ++ k :: j :: r) = Some y →
  v' = v.
Proof.
  intros (x & Hx & [[Hb ->]|[_ Ha]])%ensure_cases Hy; [done|].
  apply assign_own_path_same in Ha.
  rewrite (cons_middle k q (j :: r)), (assoc_L (++)), own_path_app, Ha in Hy.
  done.
Qed.

(** A document is valid unless it is no object or holds a truthy primitive
    at [agents], [agents.defaults] or [agents.defaults.sandbox]. *)
Lemma invalid_cases (D : val) :
  valid_document D = false →
  is_object D = false ∨
  (∃ q y, q ∈ [["agents"]; ["agents"; "defaults"]; sandbox_path] ∧
          own_path D q = Some y ∧ truthy_primitive y = true).
Proof.
  unfold valid_document, truthy_primitive.
  destruct (is_object D); [|by left]. simpl. intros Hok. right.
  destruct (own_prop D "agents") as [a|] eqn:Ha; [|done].
  destruct (to_boolean a) eqn:Hab; [|done]. simpl in Hok.
  destruct (is_object a) eqn:Hao; simpl in Hok.
  2:{ exists ["agents"], a. simpl. rewrite Ha, Hab, Hao.
      split; [set_solver|done]. }
  destruct (own_prop a "defaults") as [d|] eqn:Hd; [|done].
  destruct (to_boolean d) eqn:Hdb; [|done]. simpl in Hok.
  destruct (is_object d) eqn:Hdo; simpl in Hok.
  2:{ exists ["agents"; "defaults"], d. simpl. rewrite Ha. simpl.
      rewrite Hd, Hdb, Hdo. split; [set_solver|done]. }
  destruct (own_prop d "sandbox") as [sb|] eqn:Hs; [|done].
  destruct (to_boolean sb) eqn:Hsb; [|done]. simpl in Hok.
  rewrite andb_true_r in Hok.
  exists sandbox_path, sb. simpl. rewrite Ha. simpl. rewrite Hd. simpl.
  rewrite Hs, Hsb, Hok. split; [set_solver|done].
Qed.

Lemma serialize_object indent (v : val) :
  is_object v = true → is_Some (serialize indent v).
Proof. destruct v; simpl; try done; eauto. Qed.

Lemma patched_is_object R (D D' : val) :
  apply_patch R D = Normal D' → is_object D' = true.
Proof.
  intros [_ Hws]%apply_patch_fields. unfold workspace_path in Hws.
  simpl in Hws. destruct (own_prop D' "agents") eqn:Ha; [|done].
  by eapply own_prop_is_object.
Qed.

(** * The claims *)

(** C1: for every valid document [D] and host root [R], the patch yields a
    document [D'] whose [agents.defaults.sandbox.workspaceRoot] is [R]
    verbatim and whose [agents.defaults.workspace] is ["/workspace"], and
    every key of [D] that is neither on the way to one of these two fields
    nor below one is present in [D'] with the same value. *)
Theorem patch_sets_both_fields_and_keeps_the_rest (R : string) (D : val) :
  valid_document D = true →
  ∃ D', apply_patch R D = Normal D' ∧
        own_path D' workspace_root_path = Some (VStr R) ∧
        own_path D' workspace_path = Some (VStr "/workspace") ∧
        ∀ p v, off_patch p = true →
               own_path D p = Some v → own_path D' p = Some v.
Proof.
  intros [D' HD']%(apply_patch_ok R). exists D'.
  destruct (apply_patch_fields _ _ _ HD') as [Hroot Hws].
  repeat split; try done.
  intros p v Hp Hv. by eapply apply_patch_frame.
Qed.

(** C2, amended: the guards of lines 24-26 create a field as an empty
    mapping when it is missing or holds a falsy value, and keep a truthy
    one.  A truthy [sandbox] is kept as it is, a missing or falsy one becomes
    [{}]; a missing or falsy [defaults] becomes [{sandbox: {}}], a missing
    or falsy [agents] becomes [{defaults: {sandbox: {}}}]; and every key
    that does not lead to [agents.defaults.sandbox] keeps its value. *)
Theorem ensure_structure_fills_missing_or_falsy_levels (D D' : val) :
  ensure_structure D = Normal D' →
  (∀ p y, own_path D p = Some y → is_prefix p sandbox_path = false →
          own_path D' p = Some y) ∧
  (∀ x, own_path D sandbox_path = Some x → to_boolean x = true →
        own_path D' sandbox_path = Some x) ∧
  ((∀ x, own_path D sandbox_path = Some x → to_boolean x = false) →
   own_path D' sandbox_path = Some (VObj [])) ∧
  ((∀ x, own_path D ["agents"; "defaults"] = Some x → to_boolean x = false) →
   own_path D' ["agents"; "defaults"] = Some (VObj [("sandbox", VObj [])])) ∧
  ((∀ x, own_path D ["agents"] = Some x → to_boolean x = false) →
   own_path D' ["agents"] =
     Some (VObj [("defaults", VObj [("sandbox", VObj [])])])).
Proof.
  intros HD'. split; [intros; by eapply ensure_structure_frame|].
  destruct (ensure_structure_inv _ _ HD') as (c1 & c2 & H1 & H2 & H3).
  split; [|split; [|split]].
  - (* a truthy sandbox: no guard fires *)
    intros x Hx Hb.
    destruct (own_path_through D x ["agents"] "defaults" ["sandbox"] Hx)
      as (a & Ha & Hao).
    destruct (own_path_through D x ["agents"; "defaults"] "sandbox" [] Hx)
      as (d & Hd & Hdo).
    rewrite (ensure_truthy D a [] "agents" Ha (object_truthy _ Hao)) in H1.
    inversion H1; subst c1.
    rewrite (ensure_truthy D d ["agents"] "defaults" Hd
               (object_truthy _ Hdo)) in H2.
    inversion H2; subst c2.
    rewrite (ensure_truthy D x ["agents"; "defaults"] "sandbox" Hx Hb) in H3.
    by inversion H3; subst D'.
  - (* no truthy sandbox: the last guard fires *)
    intros Hfalsy.
    destruct (ensure_result _ _ _ _ H3) as (x & Hx & Hres).
    destruct (to_boolean x) eqn:Hb; [|exact Hres]. exfalso.
    apply get_path_defined_own in Hx; [|by apply truthy_defined].
    assert (c2 = c1) as ->
      by exact (ensure_below c1 c2 x ["agents"] "defaults" "sandbox" [] H2 Hx).
    assert (c1 = D) as ->
      by exact (ensure_below D c1 x [] "agents" "defaults" ["sandbox"] H1 Hx).
    apply Hfalsy in Hx. congruence.
  - (* no truthy defaults: the second and the third guard fire *)
    intros Hfalsy.
    assert (assign c1 ["agents"] "defaults" (VObj []) = Normal c2) as Ha2.
    { apply (ensure_fires _ _ _ _ H2). intros x Hx.
      assert (c1 = D) as ->
        by exact (ensure_below D c1 x [] "agents" "defaults" [] H1 Hx).
      by apply Hfalsy. }
    assert (own_path c2 ["agents"; "defaults"] = Some (VObj [])) as Hd2
      by exact (assign_own_path_same _ _ _ _ _ Ha2).
    assert (assign c2 ["agents"; "defaults"] "sandbox" (VObj []) = Normal D')
      as Ha3.
    { apply (ensure_fires _ _ _ _ H3). intros x Hx.
      rewrite (own_path_app c2 ["agents"; "defaults"] ["sandbox"]) in Hx.
      by rewrite Hd2 in Hx. }
    destruct (assign_below c2 D' _ _ ["agents"; "defaults"] [] "sandbox"
                Hd2 Ha3) as (o' & Ho' & Hq').
    by inversion Ho'; subst o'.
  - (* no truthy agents: all three guards fire *)
    intros Hfalsy.
    pose proof (ensure_fires _ _ _ _ H1 Hfalsy) as Ha1.
    assert (own_path c1 ["agents"] = Some (VObj [])) as Hag1
      by exact (assign_own_path_same _ _ _ _ _ Ha1).
    assert (assign c1 ["agents"] "defaults" (VObj []) = Normal c2) as Ha2.
    { apply (ensure_fires _ _ _ _ H2). intros x Hx.
      rewrite (own_path_app c1 ["agents"] ["defaults"]) in Hx.
      by rewrite Hag1 in Hx. }
    assert (own_path c2 ["agents"; "defaults"] = Some (VObj [])) as Hd2
      by exact (assign_own_path_same _ _ _ _ _ Ha2).
    destruct (assign_below c1 c2 _ _ ["agents"] [] "defaults" Hag1 Ha2)
      as (a2 & Hset2 & Hag2).
    inversion Hset2; subst a2.
    assert (assign c2 ["agents"; "defaults"] "sandbox" (VObj []) = Normal D')
      as Ha3.
    { apply (ensure_fires _ _ _ _ H3). intros x Hx.
      rewrite (own_path_app c2 ["agents"; "defaults"] ["sandbox"]) in Hx.
      by rewrite Hd2 in Hx. }
    destruct (assign_below c2 D' _ _ ["agents"] ["defaults"] "sandbox"
                Hag2 Ha3) as (a3 & Hset3 & Hag3).
    by inversion Hset3; subst a3.
Qed.

Lemma apply_patch_twice R (D D' : val) :
  apply_patch R D = Normal D' → apply_patch R D' = Normal D'.
Proof.
  intros [Hroot Hws]%apply_patch_fields.
  destruct (own_path_through D' _ [] "agents"
              ["defaults"; "sandbox"; "workspaceRoot"] Hroot)
    as (_ & _ & _).
  destruct (own_path_through D' _ ["agents"] "defaults"
              ["sandbox"; "workspaceRoot"] Hroot) as (a & Ha & Hao).
  destruct (own_path_through D' _ ["agents"; "defaults"] "sandbox"
              ["workspaceRoot"] Hroot) as (d & Hd & Hdo).
  destruct (own_path_through D' _ sandbox_path "workspaceRoot" [] Hroot)
    as (sb & Hsb & Hsbo).
  unfold apply_patch, ensure_structure.
  rewrite (ensure_truthy D' a [] "agents" Ha (object_truthy _ Hao)). simpl.
  rewrite (ensure_truthy D' d ["agents"] "defaults" Hd
             (object_truthy _ Hdo)). simpl.
  rewrite (ensure_truthy D' sb ["agents"; "defaults"] "sandbox" Hsb
             (object_truthy _ Hsbo)). simpl.
  unfold inject_workspace_root.
  rewrite (assign_same D' (VStr R) ["agents"; "defaults"; "sandbox"]
             "workspaceRoot" Hroot). simpl.
  unfold set_workspace.
  by rewrite (assign_same D' (VStr "/workspace") ["agents"; "defaults"]
                "workspace" Hws).
Qed.

(** C3: the patch is idempotent.  For every valid document [D] and host
    root [R], the patch yields a document [D'], and the patch applied to
    [D'] with the same [R] yields [D'] again. *)
Theorem apply_patch_idempotent (R : string) (D : val) :
  valid_document D = true →
  ∃ D', apply_patch R D = Normal D' ∧ apply_patch R D' = Normal D'.
Proof.
  intros [D' HD']%(apply_patch_ok R). exists D'.
  split; [done|]. by eapply apply_patch_twice.
Qed.

(** ** The process *)

Lemma env_truthy env R :
  host_workspace_root env = Some R → R ≠ "" →
  env_falsy (host_workspace_root env) = false.
Proof. intros -> HR. simpl. by apply String.eqb_neq. Qed.

Lemma env_falsy_cases env :
  env_falsy (host_workspace_root env) = true ↔
  host_workspace_root env = None ∨ host_workspace_root env = Some "".
Proof.
  destruct (host_workspace_root env) as [R|]; simpl.
  - rewrite String.eqb_eq. split; [intros ->; by right|].
    by intros [?|[= ->]].
  - split; [by left|done].
Qed.

(** What the run leaves when the patch goes through: the lines after the
    patch, with the document it produced. *)
Lemma run_patched env files R raw w (D D' : val) :
  host_workspace_root env = Some R → R ≠ "" →
  files !! config_path env = Some (RegularFile raw true w) →
  evaluate raw = Normal D →
  apply_patch R D = Normal D' →
  ∃ text, json_stringify D' = Some text ∧
    run env files =
      let injecting := Log ("Injecting sandbox.workspaceRoot = " +:+ R) in
      let setting := Log "Setting internal workspace = /workspace" in
      if w then
        ended 0 (<[config_path env := RegularFile text true true]> files)
          [injecting; setting; Log "Config updated successfully."]
          [(config_path env, text)]
      else
        ended 1 files [injecting; setting; failure (SystemError "EACCES")]
          [(config_path env, text)].
Proof.
  intros Hroot HR Hfile Hraw HD'.
  destruct (serialize_object "" D' (patched_is_object _ _ _ HD'))
    as [text Htext].
  exists text. split; [done|].
  destruct (apply_patch_inv _ _ _ HD') as (c1 & c2 & H1 & H2 & H3).
  rewrite run_eq. cbv zeta.
  rewrite (env_truthy _ _ Hroot HR), Hfile, Hraw, H1, Hroot. simpl.
  rewrite H2, H3. unfold json_stringify. by rewrite Htext.
Qed.

(** What the run leaves when the patch throws. *)
Lemma run_patch_throws env files R raw w (D : val) e :
  host_workspace_root env = Some R → R ≠ "" →
  files !! config_path env = Some (RegularFile raw true w) →
  evaluate raw = Normal D →
  apply_patch R D = Throw e →
  ∃ printed, run env files = ended 1 files (printed ++ [failure e]) [].
Proof.
  intros Hroot HR Hfile Hraw He.
  rewrite run_eq. cbv zeta.
  rewrite (env_truthy _ _ Hroot HR), Hfile, Hraw, Hroot. simpl.
  unfold apply_patch in He.
  destruct (ensure_structure D) as [c1|e1]; simpl in He.
  - destruct (inject_workspace_root (VStr R) c1) as [c2|e2]; simpl in He.
    + rewrite He. by eexists [_; _].
    + inversion He; subst. by eexists [_].
  - inversion He; subst. by exists [].
Qed.

Lemma apply_patch_invalid R (D : val) :
  valid_document D = false → apply_patch R D = Throw TypeError.
Proof.
  intros Hcases%invalid_cases.
  destruct (patch_throws (VStr R) D Hcases) as [H1|[H1 H2]];
    unfold apply_patch; rewrite H1; simpl; [done|by rewrite H2].
Qed.

(** C4, amended: in a run whose host workspace root is set and not empty,
    a config file whose content fails to parse makes the process exit with
    status 1, the disk is as it was and no write was attempted; when the file
    could be read, what is printed is the failure with the parser's
    exception. *)
Theorem parse_failure_exits_1_file_unchanged env files R raw r w e :
  host_workspace_root env = Some R → R ≠ "" →
  files !! config_path env = Some (RegularFile raw r w) →
  evaluate raw = Throw e →
  let o := run env files in
  exit_code o = 1%Z ∧ disk (final o) = files ∧ fs_writes (final o) = [] ∧
  (r = true → console (final o) = [failure e]).
Proof.
  intros Hroot HR Hfile He. cbv zeta. rewrite run_eq. cbv zeta.
  rewrite (env_truthy _ _ Hroot HR), Hfile.
  destruct r; [rewrite He|]; by repeat split.
Qed.

(** C5: when the host workspace root is unset or empty, the process leaves
    the disk as it was, whatever it holds, attempts no write, prints one
    warning, and exits with status 0. *)
Theorem missing_host_root_skips env files :
  host_workspace_root env = None ∨ host_workspace_root env = Some "" →
  run env files =
    ended 0 files
      [Warn "HOST_WORKSPACE_ROOT not set. Skipping sandbox workspaceRoot injection."]
      [].
Proof.
  intros Hroot%env_falsy_cases. rewrite run_eq. cbv zeta. by rewrite Hroot.
Qed.

(** C6, amended: when the resolved config path does not exist, the process
    creates no file, leaves the disk as it was, and exits with status 0; it
    prints the error-level message when the host workspace root is set and
    not empty, and the warning of the host-root guard otherwise. *)
Theorem missing_config_file_exits_0 env files :
  files !! config_path env = None →
  let o := run env files in
  exit_code o = 0%Z ∧ disk (final o) = files ∧ fs_writes (final o) = [] ∧
  console (final o) =
    if env_falsy (host_workspace_root env) then
      [Warn "HOST_WORKSPACE_ROOT not set. Skipping sandbox workspaceRoot injection."]
    else [Error ("Config file not found at " +:+ config_path env) None].
Proof.
  intros Hfile. cbv zeta. rewrite run_eq. cbv zeta. rewrite Hfile.
  by destruct (env_falsy _).
Qed.

(** C7, amended: the exit status is 0 or 1.  It is 1 exactly when the host
    workspace root is set and not empty, the config path exists, and the
    path is a directory, or the file cannot be read, or its content fails to
    parse, or it parses to a document that is not valid (the patch throws a
    [TypeError]), or the file cannot be written; in every other run it
    is 0. *)
Theorem exit_code_cases env files :
  let o := run env files in
  (exit_code o = 0%Z ∨ exit_code o = 1%Z) ∧
  (exit_code o = 1%Z ↔
   env_falsy (host_workspace_root env) = false ∧
   ∃ n, files !! config_path env = Some n ∧
     match n with
     | Directory => True
     | RegularFile raw r w =>
         r = false ∨
         (∃ e, evaluate raw = Throw e) ∨
         (∃ D, evaluate raw = Normal D ∧
               (valid_document D = false ∨ w = false))
     end).
Proof.
  cbv zeta.
  destruct (env_falsy (host_workspace_root env)) eqn:Hroot.
  { rewrite run_eq. cbv zeta. rewrite Hroot. simpl.
    split; [by left|]. split; [done|]. by intros [? _]. }
  destruct (files !! config_path env) as [[raw r w|]|] eqn:Hfile.
  3:{ rewrite run_eq. cbv zeta. rewrite Hroot, Hfile. simpl.
      split; [by left|]. split; [done|]. by intros [_ (n & ? & _)]. }
  2:{ rewrite run_eq. cbv zeta. rewrite Hroot, Hfile. simpl.
      split; [by right|]. split; [|done]. intros _. split; [done|].
      by exists Directory. }
  destruct r.
  2:{ rewrite run_eq. cbv zeta. rewrite Hroot, Hfile. simpl.
      split; [by right|]. split; [|done]. intros _. split; [done|].
      eexists. split; [done|]. by left. }
  destruct (evaluate raw) as [D|e] eqn:Hraw.
  2:{ rewrite run_eq. cbv zeta. rewrite Hroot, Hfile, Hraw. simpl.
      split; [by right|]. split; [|done]. intros _. split; [done|].
      eexists. split; [done|]. right. left. by exists e. }
  destruct (host_workspace_root env) as [R|] eqn:HR; [|done].
  assert (R ≠ "") as HRne by (by apply String.eqb_neq).
  destruct (valid_document D) eqn:Hvalid.
  - destruct (apply_patch_ok R D Hvalid) as [D' HD'].
    destruct (run_patched env files R raw w D D' HR HRne Hfile Hraw HD')
      as (text & _ & ->).
    destruct w; simpl.
    + split; [by left|]. split; [done|].
      intros [_ (n & [= <-] & [?|[[e He]|(D0 & HD0 & [?|?])]])];
        congruence.
    + split; [by right|]. split; [|done]. intros _. split; [done|].
      eexists. split; [done|]. right. right. exists D. auto.
  - destruct (run_patch_throws env files R raw w D TypeError HR HRne Hfile
                Hraw (apply_patch_invalid R D Hvalid)) as (printed & ->).
    simpl. split; [by right|]. split; [|done]. intros _. split; [done|].
    eexists. split; [done|]. right. right. exists D. auto.
Qed.

(** C9, amended: in a run whose host workspace root is set and not empty and
    whose config file can be read, a content that parses to a value that is
    no object, or to a document that holds a truthy primitive at [agents],
    [agents.defaults] or [agents.defaults.sandbox], makes the patch throw a
    [TypeError]; the handler prints it, the process exits with status 1, the
    disk is as it was and no write was attempted. *)
Theorem unpatchable_document_is_a_type_error env files R raw w (D : val) :
  host_workspace_root env = Some R → R ≠ "" →
  files !! config_path env = Some (RegularFile raw true w) →
  evaluate raw = Normal D →
  is_object D = false ∨
  (∃ q y, q ∈ [["agents"]; ["agents"; "defaults"]; sandbox_path] ∧
          own_path D q = Some y ∧ truthy_primitive y = true) →
  let o := run env files in
  apply_patch R D = Throw TypeError ∧
  exit_code o = 1%Z ∧ disk (final o) = files ∧ fs_writes (final o) = [] ∧
  ∃ printed, console (final o) = printed ++ [failure TypeError].
Proof.
  intros Hroot HR Hfile Hraw Hcases. cbv zeta.
  assert (apply_patch R D = Throw TypeError) as Hthrow.
  { destruct (patch_throws (VStr R) D Hcases) as [H1|[H1 H2]];
      unfold apply_patch; rewrite H1; simpl; [done|by rewrite H2]. }
  destruct (run_patch_throws env files R raw w D TypeError Hroot HR Hfile
              Hraw Hthrow) as (printed & ->).
  simpl. repeat split; try done. by exists printed.
Qed.

(** C10, amended: the run is a function of the two environment variables
    and of what the disk holds at the config path: whether there is
    anything, a file or a directory, and for a file its content and whether
    it can be read and written.  Two runs that agree on these end with the
    same exit status, the same node at the config path, the same console
    output and the same write calls. *)
Theorem run_deterministic env1 env2 files1 files2 :
  env1 !! "OPENCLAW_CONFIG_PATH" = env2 !! "OPENCLAW_CONFIG_PATH" →
  env1 !! "HOST_WORKSPACE_ROOT" = env2 !! "HOST_WORKSPACE_ROOT" →
  files1 !! config_path env1 = files2 !! config_path env1 →
  let o1 := run env1 files1 in
  let o2 := run env2 files2 in
  exit_code o1 = exit_code o2 ∧
  disk (final o1) !! config_path env1 = disk (final o2) !! config_path env2 ∧
  console (final o1) = console (final o2) ∧
  fs_writes (final o1) = fs_writes (final o2).
Proof.
  intros Hpath Hroot Hfile. cbv zeta.
  assert (config_path env2 = config_path env1) as Hcp
    by (unfold config_path; by rewrite Hpath).
  assert (host_workspace_root env2 = host_workspace_root env1) as Hhr
    by (unfold host_workspace_root; by rewrite Hroot).
  rewrite !run_eq. cbv zeta. rewrite Hcp, Hhr, <- Hfile.
  destruct (env_falsy (host_workspace_root env1));
    [simpl; by repeat split|].
  destruct (files1 !! config_path env1) as [[raw [] w|]|] eqn:Hf;
    try (simpl; repeat split; congruence).
  destruct (evaluate raw) as [D|e]; [|simpl; repeat split; congruence].
  destruct (ensure_structure D) as [c1|e];
    [|simpl; repeat split; congruence].
  destruct (inject_workspace_root _ c1) as [c2|e];
    [|simpl; repeat split; congruence].
  destruct (set_workspace c2) as [c3|e];
    [|simpl; repeat split; congruence].
  destruct (json_stringify c3) as [text|];
    [|simpl; repeat split; congruence].
  destruct w; simpl; [|repeat split; congruence].
  by rewrite !lookup_insert_eq.
Qed.

(** The patch succeeds on the valid documents and throws a [TypeError] on
    all others. *)
Theorem apply_patch_total R (D : val) :
  if valid_document D then ∃ D', apply_patch R D = Normal D'
  else apply_patch R D = Throw TypeError.
Proof.
  destruct (valid_document D) eqn:Hvalid.
  - by apply apply_patch_ok.
  - by apply apply_patch_invalid.
Qed.

(** A run touches no path of the disk but the config path. *)
Theorem run_touches_config_path_only env files p :
  p ≠ config_path env →
  disk (final (run env files)) !! p = files !! p.
Proof.
  intros Hp. rewrite run_eq. cbv zeta.
  destruct (env_falsy (host_workspace_root env)); [done|].
  destruct (files !! config_path env) as [[raw [] w|]|]; try done.
  destruct (evaluate raw) as [D|e]; [|done].
  destruct (ensure_structure D) as [c1|e]; [|done].
  destruct (inject_workspace_root _ c1) as [c2|e]; [|done].
  destruct (set_workspace c2) as [c3|e]; [|done].
  destruct (json_stringify c3) as [text|]; [|done].
  destruct w; simpl; [|done].
  by rewrite lookup_insert_ne.
Qed.

(** A second run over the file a successful run wrote: when the engine reads
    the written text back as the document it was written from, the second
    run succeeds too and leaves the disk as the first one left it. *)
Theorem second_run_leaves_the_file env files R raw (D D' : val) text :
  host_workspace_root env = Some R → R ≠ "" →
  files !! config_path env = Some (RegularFile raw true true) →
  evaluate raw = Normal D →
  apply_patch R D = Normal D' →
  json_stringify D' = Some text →
  evaluate text = Normal D' →
  let o1 := run env files in
  let o2 := run env (disk (final o1)) in
  exit_code o1 = 0%Z ∧ exit_code o2 = 0%Z ∧
  disk (final o2) = disk (final o1) ∧
  disk (final o1) !! config_path env = Some (RegularFile text true true).
Proof.
  intros Hroot HR Hfile Hraw HD' Htext Hback. cbv zeta.
  destruct (run_patched env files R raw true D D' Hroot HR Hfile Hraw HD')
    as (text1 & Htext1 & ->).
  assert (text1 = text) as -> by congruence. simpl.
  destruct (run_patched env
              (<[config_path env := RegularFile text true true]> files)
              R text true D' D' Hroot HR (lookup_insert_eq _ _ _) Hback
              (apply_patch_twice _ _ _ HD'))
    as (text2 & Htext2 & ->).
  assert (text2 = text) as -> by congruence. simpl.
  rewrite insert_insert_eq, lookup_insert_eq. by repeat split.
Qed.

(** ** Key order *)

Lemma keys_store_prop k x (ps : props) :
  map fst (store_prop k x ps) = add_key k (map fst ps).
Proof.
  unfold add_key. induction ps as [|[j y] ps IH].
  - simpl. destruct (decide (k ∈ [])) as [Hin|_]; [|done].
    by apply elem_of_nil in Hin.
  - cbn [store_prop map fst].
    destruct (String.eqb k j) eqn:Hkj; cbn [map fst].
    + apply String.eqb_eq in Hkj as ->.
      destruct (decide (j ∈ j :: map fst ps)) as [_|Hn]; [done|].
      exfalso. apply Hn, list_elem_of_here.
    + apply String.eqb_neq in Hkj. rewrite IH.
      destruct (decide (k ∈ map fst ps)) as [Hin|Hin];
        destruct (decide (k ∈ j :: map fst ps)) as [Hin'|Hin']; try done.
      * exfalso. by apply Hin', list_elem_of_further.
      * exfalso. apply elem_of_cons in Hin' as [?|?]; done.
Qed.

Lemma lookup_prop_key k x (ps : props) :
  lookup_prop k ps = Some x → k ∈ map fst ps.
Proof.
  induction ps as [|[j y] ps IH]; simpl; [done|].
  destruct (String.eqb k j) eqn:Hkj.
  - apply String.eqb_eq in Hkj as ->. intros _. apply list_elem_of_here.
  - intros H. apply list_elem_of_further. by apply IH.
Qed.

Lemma own_prop_key (v x : val) k :
  own_prop v k = Some x → add_key k (own_keys v) = own_keys v.
Proof.
  intros H. unfold add_key.
  destruct (decide (k ∈ own_keys v)) as [_|Hn]; [done|].
  exfalso. apply Hn.
  destruct v; simpl in *; try done; by eapply lookup_prop_key.
Qed.

Lemma own_keys_write_back (v o : val) k :
  is_object v = true →
  own_keys (write_back v k o) = add_key k (own_keys v).
Proof. destruct v; simpl; try done; intros _; apply keys_store_prop. Qed.

(** The keys of an object that a store [v.q.k = x] passes, reaches or
    misses: [k] is added where the store lands, and nothing else changes. *)
Lemma assign_keys (v v' x o : val) q k q' :
  assign v q k x = Normal v' →
  own_path v q' = Some o →
  is_prefix (q ++ [k]) q' = false →
  ∃ o', own_path v' q' = Some o' ∧
        own_keys o' = if decide (q' = q) then add_key k (own_keys o)
                      else own_keys o.
Proof.
  revert v v' q'. induction q as [|k1 q IH]; intros v v' q'.
  - intros [Hobj ->]%set_prop_write_back Ho Hp.
    destruct q' as [|j r].
    + inversion Ho; subst o. eexists. split; [done|].
      case_decide; [|done]. by rewrite own_keys_write_back.
    + cbn in Hp. rewrite andb_true_r in Hp.
      cbn [own_path] in *.
      rewrite own_prop_write_back_ne
        by (rewrite String.eqb_sym; exact Hp).
      exists o. split; [done|]. by case_decide.
  - cbn [assign]. intros Hassign Ho Hp.
    destruct (get_prop v k1) as [o1|] eqn:Ho1; [|done].
    cbn in Hassign.
    destruct (assign o1 q k x) as [o1'|] eqn:Ha; [|done].
    cbn in Hassign. inversion Hassign; subst v'.
    assert (own_prop v k1 = Some o1) as Hown.
    { destruct v; simpl in *; try done; inversion Ho1; subst;
        try by destruct q.
      all: destruct (lookup_prop k1 _); simpl in *; [done|by destruct q]. }
    pose proof (own_prop_is_object _ _ _ Hown) as Hobj.
    destruct q' as [|j r].
    + inversion Ho; subst o. eexists. split; [done|].
      case_decide; [done|].
      by rewrite own_keys_write_back, (own_prop_key _ _ _ Hown).
    + cbn [own_path] in *. cbn in Hp.
      destruct (String.eqb k1 j) eqn:Hj; cbn in Hp.
      * apply String.eqb_eq in Hj as <-.
        rewrite own_prop_write_back_eq by done. rewrite Hown in Ho.
        cbn in Ho |- *. destruct (IH _ _ _ Ha Ho Hp) as (o' & Ho' & Hk).
        exists o'. split; [done|]. rewrite Hk.
        repeat case_decide; try done; congruence.
      * rewrite own_prop_write_back_ne
          by (rewrite String.eqb_sym; exact Hj).
        exists o. split; [done|]. case_decide as Heq; [|done].
        inversion Heq; subst. by rewrite String.eqb_refl in Hj.
Qed.

(** The same for a guard, at every own path. *)
Lemma ensure_keys (v v' o : val) q k q' :
  ensure v q k = Normal v' →
  own_path v q' = Some o →
  ∃ o', own_path v' q' = Some o' ∧
        own_keys o' = if decide (q' = q) then add_key k (own_keys o)
                      else own_keys o.
Proof.
  intros Hens Ho.
  destruct (ensure_cases _ _ _ _ Hens) as (x & Hx & [[Hb ->]|[Hb Ha]]).
  - exists o. split; [done|]. case_decide as Hq; [subst q'|done].
    apply get_path_defined_own in Hx; [|by apply truthy_defined].
    rewrite own_path_app, Ho in Hx. cbn in Hx.
    destruct (own_prop o k) as [y|] eqn:Hy; [|done].
    by rewrite (own_prop_key _ _ _ Hy).
  - destruct (is_prefix (q ++ [k]) q') eqn:Hp;
      [|by eapply assign_keys].
    apply is_prefix_app in Hp as [r ->].
    rewrite own_path_app in Ho.
    destruct (own_path v (q ++ [k])) as [x0|] eqn:Hx0; [|done].
    cbn in Ho.
    rewrite (get_path_own _ _ _ Hx0) in Hx. inversion Hx; subst x0.
    destruct r as [|j r].
    + cbn in Ho. inversion Ho; subst o. rewrite app_nil_r.
      exists (VObj []). split; [by eapply assign_own_path_same|].
      case_decide as Heq.
      * apply (f_equal List.length) in Heq.
        rewrite length_app in Heq. simpl in Heq. lia.
      * by destruct x.
    + cbn in Ho. destruct (own_prop x j) eqn:Hj; [|done].
      apply own_prop_is_object in Hj. by destruct x.
Qed.

(** The patch reorders no keys.  An object of [D] that is not below one of
    the two patched fields is in [D'] at the same path, with its keys in the
    order they had; the names the script stores under it and that it lacked
    follow at the end, in the order of the stores. *)
Theorem patch_keeps_key_order R (D D' o : val) q :
  apply_patch R D = Normal D' →
  own_path D q = Some o →
  is_prefix workspace_root_path q = false →
  is_prefix workspace_path q = false →
  ∃ o', own_path D' q = Some o' ∧
        own_keys o' = foldl (λ ks k, add_key k ks) (own_keys o) (new_keys q).
Proof.
  intros (c3 & c4 & H123 & H4 & H5)%apply_patch_inv Ho Hroot Hws.
  destruct (ensure_structure_inv _ _ H123) as (c1 & c2 & H1 & H2 & H3).
  destruct (ensure_keys _ _ _ _ _ q H1 Ho) as (o1 & Ho1 & K1).
  destruct (ensure_keys _ _ _ _ _ q H2 Ho1) as (o2 & Ho2 & K2).
  destruct (ensure_keys _ _ _ _ _ q H3 Ho2) as (o3 & Ho3 & K3).
  destruct (assign_keys _ _ _ _ _ _ q H4 Ho3 Hroot) as (o4 & Ho4 & K4).
  destruct (assign_keys _ _ _ _ _ _ q H5 Ho4 Hws) as (o5 & Ho5 & K5).
  exists o5. split; [done|].
  rewrite K5, K4, K3, K2, K1. unfold new_keys, sandbox_path.
  repeat case_decide; subst; try done.
Qed.

(** ** More on the guards and on the run *)

(** After lines 24-26, [agents] and [agents.defaults] hold objects and
    [agents.defaults.sandbox] holds a truthy value, whatever the document
    was. *)
Theorem ensure_structure_leaves_truthy_fields (D D' : val) :
  ensure_structure D = Normal D' →
  ∃ a d sb,
    own_path D' ["agents"] = Some a ∧ is_object a = true ∧
    own_path D' ["agents"; "defaults"] = Some d ∧ is_object d = true ∧
    own_path D' sandbox_path = Some sb ∧ to_boolean sb = true.
Proof.
  intros (c1 & c2 & _ & _ & H3)%ensure_structure_inv.
  destruct (ensure_result _ _ _ _ H3) as (x & _ & Hsb).
  change (["agents"; "defaults"] ++ ["sandbox"]) with sandbox_path in Hsb.
  destruct (own_path_through D' _ [] "agents" ["defaults"; "sandbox"] Hsb)
    as (_ & _ & _).
  destruct (own_path_through D' _ ["agents"] "defaults" ["sandbox"] Hsb)
    as (a & Ha & Hao).
  destruct (own_path_through D' _ ["agents"; "defaults"] "sandbox" [] Hsb)
    as (d & Hd & Hdo).
  exists a, d, (if to_boolean x then x else VObj []).
  repeat split; try done. by destruct (to_boolean x) eqn:Hb.
Qed.

(** The exit status is 1 exactly when the last line printed is the
    handler's [Failed to update config:] with the exception caught. *)
Theorem exit_1_iff_failure_printed_last env files :
  let o := run env files in
  exit_code o = 1%Z ↔ ∃ e, last (console (final o)) = Some (failure e).
Proof.
  cbv zeta. rewrite run_eq. cbv zeta. unfold failure.
  destruct (env_falsy (host_workspace_root env));
    [simpl; split; [done|by intros [? ?]]|].
  destruct (files !! config_path env) as [[raw [] w|]|];
    try (simpl; split; [eauto|done]);
    try (simpl; split; [done|by intros [? ?]]).
  destruct (evaluate raw) as [D|e]; [|simpl; split; [eauto|done]].
  destruct (ensure_structure D) as [c1|e]; [|simpl; split; [eauto|done]].
  destruct (inject_workspace_root _ c1) as [c2|e];
    [|simpl; split; [eauto|done]].
  destruct (set_workspace c2) as [c3|e]; [|simpl; split; [eauto|done]].
  destruct (json_stringify c3) as [text|]; [|simpl; split; [eauto|done]].
  destruct w; simpl; split; eauto; try done. by intros [? ?].
Qed.

(** Whatever a run hands to [fs.writeFileSync] is handed to it for the
    config path, and is the serialization of the patched document: of the
    file's content evaluated and patched with a non-empty host root.  This
    holds of a write that is refused as well. *)
Theorem every_write_is_a_patched_document env files p text :
  (p, text) ∈ fs_writes (final (run env files)) →
  p = config_path env ∧
  ∃ R raw w D D',
    host_workspace_root env = Some R ∧ R ≠ "" ∧
    files !! config_path env = Some (RegularFile raw true w) ∧
    evaluate raw = Normal D ∧
    apply_patch R D = Normal D' ∧
    json_stringify D' = Some text.
Proof.
  rewrite run_eq. cbv zeta.
  destruct (env_falsy (host_workspace_root env)) eqn:Hroot;
    [by intros ?%elem_of_nil|].
  destruct (files !! config_path env) as [[raw [] w|]|] eqn:Hfile;
    try by intros ?%elem_of_nil.
  destruct (evaluate raw) as [D|e] eqn:Hraw; [|by intros ?%elem_of_nil].
  destruct (ensure_structure D) as [c1|e] eqn:H1;
    [|by intros ?%elem_of_nil].
  destruct (inject_workspace_root _ c1) as [c2|e] eqn:H2;
    [|by intros ?%elem_of_nil].
  destruct (set_workspace c2) as [c3|e] eqn:H3; [|by intros ?%elem_of_nil].
  destruct (json_stringify c3) as [text'|] eqn:Htext;
    [|by intros ?%elem_of_nil].
  destruct (host_workspace_root env) as [R|] eqn:HR; [|done].
  intros Hin.
  assert ((p, text) = (config_path env, text')) as [= -> ->].
  { destruct w; simpl in Hin; by apply list_elem_of_singleton in Hin. }
  split; [done|]. exists R, raw, w, D, c3. simpl in Hroot, H2.
  repeat split; try done.
  - by apply String.eqb_neq.
  - unfold apply_patch. rewrite H1. simpl. by rewrite H2.
Qed.

(** A valid document in a file that can be read and not written: the patch
    goes through in memory, both progress lines are printed, the one write
    is refused, the handler prints the system error, and the process exits
    with status 1 over an unchanged disk. *)
Theorem refused_write_exits_1 env files R raw (D : val) :
  host_workspace_root env = Some R → R ≠ "" →
  files !! config_path env = Some (RegularFile raw true false) →
  evaluate raw = Normal D →
  valid_document D = true →
  ∃ D' text,
    apply_patch R D = Normal D' ∧ json_stringify D' = Some text ∧
    run env files =
      ended 1 files
        [Log ("Injecting sandbox.workspaceRoot = " +:+ R);
         Log "Setting internal workspace = /workspace";
         failure (SystemError "EACCES")]
        [(config_path env, text)].
Proof.
  intros Hroot HR Hfile Hraw [D' HD']%(apply_patch_ok R).
  destruct (run_patched env files R raw false D D' Hroot HR Hfile Hraw HD')
    as (text & Htext & Hrun).
  by exists D', text.
Qed.

(** The run reads the environment through the two variables only. *)
Lemma run_env env1 env2 files :
  config_path env1 = config_path env2 →
  host_workspace_root env1 = host_workspace_root env2 →
  run env1 files = run env2 files.
Proof. intros Hcp Hhr. rewrite !run_eq. cbv zeta. by rewrite Hcp, Hhr. Qed.

(** An empty [OPENCLAW_CONFIG_PATH] is no override: the run is the one of
    the environment without the variable, on the default path. *)
Theorem empty_config_path_is_no_override env files :
  run (<["OPENCLAW_CONFIG_PATH" := ""]> env) files =
  run (delete "OPENCLAW_CONFIG_PATH" env) files ∧
  config_path (<["OPENCLAW_CONFIG_PATH" := ""]> env) = default_config_path.
Proof.
  assert (config_path (<["OPENCLAW_CONFIG_PATH" := ""]> env)
          = default_config_path) as Hcp.
  { unfold config_path. by rewrite lookup_insert_eq. }
  split; [|done]. apply run_env.
  - rewrite Hcp. unfold config_path. by rewrite lookup_delete_eq.
  - unfold host_workspace_root.
    by rewrite lookup_insert_ne, lookup_delete_ne.
Qed.

(** ** Arrays on the path *)

(** Replacing a property by a value that serializes alike changes nothing
    in the serialization. *)
Lemma serialize_write_back indent (v o o' : val) k :
  own_prop v k = Some o →
  (∀ i, serialize i o' = serialize i o) →
  serialize indent (write_back v k o') = serialize indent v.
Proof.
  intros Hown Hser. destruct v as [| | | | |es ps|ps]; try done.
  simpl in *. do 2 f_equal. revert Hown.
  induction ps as [|[j y] ps IH]; intros Hown; [done|].
  simpl in *. destruct (String.eqb k j) eqn:Hkj.
  - apply String.eqb_eq in Hkj as ->. inversion Hown; subst y. simpl.
    by rewrite Hser.
  - simpl. by rewrite (IH Hown).
Qed.

Lemma assign_array (v' x : val) es xs q k :
  assign (VArr es xs) q k x = Normal v' → ∃ xs', v' = VArr es xs'.
Proof.
  destruct q as [|k1 q]; simpl.
  - intros [= <-]. eauto.
  - destruct (assign _ q k x); simpl; [|done]. intros [= <-]. eauto.
Qed.

(** A store below an array does not show in the serialization. *)
Lemma assign_below_array (v v' x : val) es xs q1 q2 k :
  own_path v q1 = Some (VArr es xs) →
  assign v (q1 ++ q2) k x = Normal v' →
  (∀ i, serialize i v' = serialize i v) ∧
  ∃ xs', own_path v' q1 = Some (VArr es xs').
Proof.
  revert v v'. induction q1 as [|k1 q1 IH]; intros v v'.
  - intros [= ->] [xs' ->]%assign_array. split; [done|]. by exists xs'.
  - cbn [own_path app assign]. intros Ho Ha.
    destruct (own_prop v k1) as [o1|] eqn:Hown; [|done]. cbn in Ho.
    rewrite (get_prop_own _ _ _ Hown) in Ha. cbn in Ha.
    destruct (assign o1 (q1 ++ q2) k x) as [o1'|] eqn:Ha1; [|done].
    cbn in Ha. inversion Ha; subst v'.
    destruct (IH _ _ Ho Ha1) as [Hser (xs' & Hxs')]. split.
    + intros i. by apply (serialize_write_back i v o1 o1' k1).
    + exists xs'.
      rewrite own_prop_write_back_eq by (by eapply own_prop_is_object).
      done.
Qed.

Lemma ensure_below_array (v v' : val) es xs q1 q2 k :
  own_path v q1 = Some (VArr es xs) →
  ensure v (q1 ++ q2) k = Normal v' →
  (∀ i, serialize i v' = serialize i v) ∧
  ∃ xs', own_path v' q1 = Some (VArr es xs').
Proof.
  intros Ho (x & _ & [[_ ->]|[_ Ha]])%ensure_cases.
  - split; [done|]. by exists xs.
  - by eapply assign_below_array.
Qed.

(** When the document itself, its [agents] or its [agents.defaults] is an
    array, a patch that goes through stores its fields in named properties
    of the array, and [JSON.stringify] writes none of them: the text
    written is the serialization of the document as it was read. *)
Theorem patch_below_array_is_not_written R (D D' : val) q es xs :
  q ∈ [[]; ["agents"]; ["agents"; "defaults"]] →
  own_path D q = Some (VArr es xs) →
  apply_patch R D = Normal D' →
  json_stringify D' = json_stringify D.
Proof.
  intros Hq Hq0 (c3 & c4 & H123 & H4 & H5)%apply_patch_inv.
  destruct (ensure_structure_inv _ _ H123) as (c1 & c2 & H1 & H2 & H3).
  unfold json_stringify, inject_workspace_root, set_workspace in *.
  rewrite !elem_of_cons, elem_of_nil in Hq.
  destruct Hq as [->|[->|[->|[]]]].
  - destruct (ensure_below_array D c1 es xs [] [] "agents" Hq0 H1)
      as [S1 (x1 & P1)].
    destruct (ensure_below_array c1 c2 es x1 [] ["agents"] "defaults" P1 H2)
      as [S2 (x2 & P2)].
    destruct (ensure_below_array c2 c3 es x2 [] ["agents"; "defaults"]
                "sandbox" P2 H3) as [S3 (x3 & P3)].
    destruct (assign_below_array c3 c4 _ es x3 [] sandbox_path
                "workspaceRoot" P3 H4) as [S4 (x4 & P4)].
    destruct (assign_below_array c4 D' _ es x4 [] ["agents"; "defaults"]
                "workspace" P4 H5) as [S5 _].
    by rewrite S5, S4, S3, S2, S1.
  - rewrite (ensure_truthy D _ [] "agents" Hq0 eq_refl) in H1.
    inversion H1; subst c1.
    destruct (ensure_below_array D c2 es xs ["agents"] [] "defaults" Hq0 H2)
      as [S2 (x2 & P2)].
    destruct (ensure_below_array c2 c3 es x2 ["agents"] ["defaults"]
                "sandbox" P2 H3) as [S3 (x3 & P3)].
    destruct (assign_below_array c3 c4 _ es x3 ["agents"]
                ["defaults"; "sandbox"] "workspaceRoot" P3 H4)
      as [S4 (x4 & P4)].
    destruct (assign_below_array c4 D' _ es x4 ["agents"] ["defaults"]
                "workspace" P4 H5) as [S5 _].
    by rewrite S5, S4, S3, S2.
  - destruct (own_path_through D _ [] "agents" ["defaults"] Hq0)
      as (_ & _ & _).
    destruct (own_path_through D _ ["agents"] "defaults" [] Hq0)
      as (a & Ha & Hao).
    rewrite (ensure_truthy D a [] "agents" Ha (object_truthy _ Hao)) in H1.
    inversion H1; subst c1.
    rewrite (ensure_truthy D _ ["agents"] "defaults" Hq0 eq_refl) in H2.
    inversion H2; subst c2.
    destruct (ensure_below_array D c3 es xs ["agents"; "defaults"] []
                "sandbox" Hq0 H3) as [S3 (x3 & P3)].
    destruct (assign_below_array c3 c4 _ es x3 ["agents"; "defaults"]
                ["sandbox"] "workspaceRoot" P3 H4) as [S4 (x4 & P4)].
    destruct (assign_below_array c4 D' _ es x4 ["agents"; "defaults"] []
                "workspace" P4 H5) as [S5 _].
    by rewrite S5, S4, S3.
Qed.

(** ** A changed host root *)

Lemma store_store k x y (ps : props) :
  store_prop k y (store_prop k x ps) = store_prop k y ps.
Proof.
  induction ps as [|[j z] ps IH]; simpl.
  - by rewrite String.eqb_refl.
  - destruct (String.eqb k j) eqn:Hkj; simpl.
    + by rewrite String.eqb_refl.
    + by rewrite Hkj, IH.
Qed.

(** Stores under two names commute when the first name is there. *)
Lemma store_comm k1 k2 x y z (ps : props) :
  String.eqb k1 k2 = false →
  lookup_prop k1 ps = Some z →
  store_prop k2 y (store_prop k1 x ps) = store_prop k1 x (store_prop k2 y ps).
Proof.
  intros Hne. induction ps as [|[j w] ps IH]; [done|].
  cbn [lookup_prop store_prop].
  destruct (String.eqb k1 j) eqn:H1j.
  - apply String.eqb_eq in H1j as <-. intros _.
    cbn [store_prop]. rewrite String.eqb_sym, Hne.
    cbn [store_prop]. by rewrite String.eqb_refl.
  - intros Hz. destruct (String.eqb k2 j) eqn:H2j;
      do 3 (cbn [store_prop]; rewrite ?H2j, ?H1j, ?Hne); [done|].
    by rewrite (IH Hz).
Qed.

Lemma write_back_write_back (v o o' : val) k :
  write_back (write_back v k o) k o' = write_back v k o'.
Proof. destruct v; simpl; try done; by rewrite store_store. Qed.

Lemma write_back_comm (v x y z : val) k1 k2 :
  String.eqb k1 k2 = false →
  own_prop v k1 = Some z →
  write_back (write_back v k1 x) k2 y = write_back (write_back v k2 y) k1 x.
Proof.
  intros Hne Hz. destruct v; simpl in *; try done;
    by rewrite (store_comm _ _ _ _ _ _ Hne Hz).
Qed.

(** What a read finds when a store below it went through. *)
Lemma assign_through (v v' x : val) k1 q k :
  assign v (k1 :: q) k x = Normal v' →
  ∃ o o', own_prop v k1 = Some o ∧ assign o q k x = Normal o' ∧
          v' = write_back v k1 o'.
Proof.
  simpl. destruct (get_prop v k1) as [o|] eqn:Ho; simpl; [|done].
  destruct (assign o q k x) as [o'|] eqn:Ha; simpl; [|done].
  intros [= <-]. exists o, o'. repeat split; try done.
  destruct v; simpl in *; try done; inversion Ho; subst;
    try by destruct q.
  all: destruct (lookup_prop k1 _); simpl in *; [done|by destruct q].
Qed.

(** A second store in the same place overrides the first. *)
Lemma assign_assign (v v1 x y : val) q k :
  assign v q k x = Normal v1 →
  assign v1 q k y = assign v q k y.
Proof.
  revert v v1. induction q as [|k1 q IH]; intros v v1.
  - intros [Hobj ->]%set_prop_write_back.
    destruct v; simpl in *; try done; by rewrite store_store.
  - intros (o & o' & Hown & Ha & ->)%assign_through.
    pose proof (own_prop_is_object _ _ _ Hown) as Hobj.
    cbn [assign].
    rewrite (get_prop_own _ _ _ (own_prop_write_back_eq v o' k1 Hobj)).
    rewrite (get_prop_own _ _ _ Hown). cbn.
    rewrite (IH _ _ Ha).
    destruct (assign o q k y); cbn; [|done].
    by rewrite write_back_write_back.
Qed.

(** A store into an object and a store below one of its properties
    commute. *)
Lemma assign_comm (v v1 v2 x y : val) q0 k1 q1 k k2 :
  String.eqb k1 k2 = false →
  assign v (q0 ++ k1 :: q1) k x = Normal v1 →
  assign v q0 k2 y = Normal v2 →
  ∃ v3, assign v1 q0 k2 y = Normal v3 ∧
        assign v2 (q0 ++ k1 :: q1) k x = Normal v3.
Proof.
  intros Hne. revert v v1 v2.
  induction q0 as [|j q0 IH]; intros v v1 v2.
  - cbn [app]. intros (o & o' & Hown & Ha & ->)%assign_through
      [Hobj ->]%set_prop_write_back.
    exists (write_back (write_back v k1 o') k2 y). split.
    + destruct v; simpl in *; done.
    + cbn [assign].
      assert (own_prop (write_back v k2 y) k1 = Some o) as Hown'.
      { by rewrite own_prop_write_back_ne. }
      rewrite (get_prop_own _ _ _ Hown'). cbn. rewrite Ha. cbn.
      by rewrite (write_back_comm _ _ _ _ _ _ Hne Hown).
  - cbn [app]. intros (o & o1 & Hown & Ha1 & ->)%assign_through
      (o0 & o2 & Hown2 & Ha2 & ->)%assign_through.
    rewrite Hown in Hown2. inversion Hown2; subst o0.
    pose proof (own_prop_is_object _ _ _ Hown) as Hobj.
    destruct (IH _ _ _ Ha1 Ha2) as (o3 & H13 & H23).
    exists (write_back v j o3). split.
    + cbn [assign].
      rewrite (get_prop_own _ _ _ (own_prop_write_back_eq v o1 j Hobj)).
      cbn. rewrite H13. cbn. by rewrite write_back_write_back.
    + cbn [assign].
      rewrite (get_prop_own _ _ _ (own_prop_write_back_eq v o2 j Hobj)).
      cbn. rewrite H23. cbn. by rewrite write_back_write_back.
Qed.

Lemma ensure_structure_intro (D c1 c2 c3 : val) :
  ensure D [] "agents" = Normal c1 →
  ensure c1 ["agents"] "defaults" = Normal c2 →
  ensure c2 ["agents"; "defaults"] "sandbox" = Normal c3 →
  ensure_structure D = Normal c3.
Proof.
  intros H1 H2 H3. unfold ensure_structure.
  rewrite H1. simpl. rewrite H2. simpl. exact H3.
Qed.

Lemma apply_patch_intro R (D c a D' : val) :
  ensure_structure D = Normal c →
  inject_workspace_root (VStr R) c = Normal a →
  set_workspace a = Normal D' →
  apply_patch R D = Normal D'.
Proof.
  intros H1 H2 H3. unfold apply_patch.
  rewrite H1. simpl. rewrite H2. simpl. exact H3.
Qed.

(** The last host root wins: patching the document a patch produced, with
    another host root, gives what the patch of the original document with
    that root gives. *)
Theorem last_host_root_wins R1 R2 (D D1 : val) :
  apply_patch R1 D = Normal D1 →
  apply_patch R2 D1 = apply_patch R2 D.
Proof.
  intros HD1.
  destruct (apply_patch_inv _ _ _ HD1) as (c & a & Hc & Ha & Hsw).
  destruct (apply_patch_fields _ _ _ HD1) as [Hroot Hws].
  unfold inject_workspace_root, set_workspace in Ha, Hsw.
  (* the same stores with the other root, on the guarded document *)
  assert (∃ b, assign a sandbox_path "workspaceRoot" (VStr R2) = Normal b)
    as [b Hb].
  { destruct (own_path_through a (VStr R1) sandbox_path "workspaceRoot" []
                (assign_own_path_same _ _ _ _ _ Ha)) as (sb & Hsb & Hsbo).
    by eapply assign_ok. }
  pose proof Hb as Hcb. rewrite (assign_assign _ _ _ _ _ _ Ha) in Hcb.
  destruct (assign_comm a b D1 (VStr R2) (VStr "/workspace")
              ["agents"; "defaults"] "sandbox" [] "workspaceRoot" "workspace"
              eq_refl Hb Hsw) as (D2 & Hb2 & HD2).
  (* on [D1] the guards do nothing *)
  destruct (own_path_through D1 _ ["agents"] "defaults"
              ["sandbox"; "workspaceRoot"] Hroot) as (ag & Hag & Hago).
  destruct (own_path_through D1 _ ["agents"; "defaults"] "sandbox"
              ["workspaceRoot"] Hroot) as (d & Hd & Hdo).
  destruct (own_path_through D1 _ sandbox_path "workspaceRoot" [] Hroot)
    as (sb & Hsb & Hsbo).
  rewrite (apply_patch_intro R2 D c b D2 Hc Hcb Hb2).
  apply (apply_patch_intro R2 D1 D1 D2 D2).
  - apply (ensure_structure_intro D1 D1 D1 D1).
    + exact (ensure_truthy D1 ag [] "agents" Hag (object_truthy _ Hago)).
    + exact (ensure_truthy D1 d ["agents"] "defaults" Hd
               (object_truthy _ Hdo)).
    + exact (ensure_truthy D1 sb ["agents"; "defaults"] "sandbox" Hsb
               (object_truthy _ Hsbo)).
  - exact HD2.
  - exact (assign_same D2 (VStr "/workspace") ["agents"; "defaults"]
             "workspace" (assign_own_path_same _ _ _ _ _ Hb2)).
Qed.

(** ** The text written is the JSON text of the document *)

Lemma escape_char_escaped c s t :
  escaped s t → escaped (String c s) (escape_char c +:+ t).
Proof.
  intros H.
  destruct c as [[] [] [] [] [] [] [] []];
    match goal with
    | |- escaped (String ?c _) _ =>
        first [ exact (escaped_plain c s t eq_refl H)
              | exact (escaped_short c _ s t eq_refl H)
              | exact (escaped_unicode c s t eq_refl eq_refl H) ]
    end.
Qed.

Lemma escape_escaped s : escaped s (escape s).
Proof.
  induction s as [|c s IH]; simpl.
  - constructor.
  - by apply escape_char_escaped.
Qed.

Lemma append_assoc (a b c : string) : (a +:+ b) +:+ c = a +:+ (b +:+ c).
Proof.
  induction a as [|x a IH]; [done|].
  change (String x ((a +:+ b) +:+ c) = String x (a +:+ b +:+ c)).
  by rewrite IH.
Qed.

Lemma join_item_lines inner x parts rest :
  inner +:+ join ("," +:+ newline +:+ inner) (x :: parts)
    +:+ newline +:+ rest
  = item_lines inner (x :: parts) +:+ rest.
Proof.
  revert x. induction parts as [|y parts IH]; intros x.
  - cbn [join item_lines]. by rewrite !append_assoc.
  - change (join ("," +:+ newline +:+ inner) (x :: y :: parts))
      with (x +:+ ("," +:+ newline +:+ inner)
              +:+ join ("," +:+ newline +:+ inner) (y :: parts)).
    change (item_lines inner (x :: y :: parts))
      with (inner +:+ x +:+ "," +:+ line_break
              +:+ item_lines inner (y :: parts)).
    rewrite !append_assoc. rewrite IH. reflexivity.
Qed.

Lemma wrap_block opening closing i x parts :
  wrap opening closing i (x :: parts) = block opening closing i (x :: parts).
Proof.
  unfold wrap, block. change gap with "  ".
  by rewrite <- join_item_lines.
Qed.

Lemma serialize_none i (v : val) : serialize i v = None → v = VUndefined.
Proof. by destruct v. Qed.

Lemma serialize_array_items i es xs :
  serialize i (VArr es xs) =
    Some (wrap "[" "]" i (serialize_elements (i +:+ gap) es)).
Proof. reflexivity. Qed.

Lemma serialize_object_members i ps :
  serialize i (VObj ps) =
    Some (wrap "{" "}" i (serialize_members (i +:+ gap) ps)).
Proof.
  cbn [serialize]. do 2 f_equal.
  induction ps as [|[k x] ps IH]; [done|].
  cbn [serialize_members]. by rewrite <- IH.
Qed.

(** [serialize] writes the JSON text of the value, two spaces to a level:
    strings and keys quoted and escaped, one element or member to a line,
    [undefined] properties and the named properties of arrays left out. *)
Lemma serialize_renders (v : val) :
  ∀ i t, serialize i v = Some t → renders i v t.
Proof.
  induction v as [| |b|n|s|es xs IHes _|ps IHps] using value_ind_nested;
    intros i t.
  - done.
  - intros [= <-]. constructor.
  - intros [= <-]. destruct b; constructor.
  - intros [= <-]. constructor.
  - intros [= <-]. apply renders_string, escape_escaped.
  - rewrite serialize_array_items. intros [= <-].
    assert (renders_elements (i +:+ "  ") es
              (serialize_elements (i +:+ gap) es)) as Hel.
    { induction IHes as [|e es He _ IH]; simpl; [constructor|].
      destruct (serialize (i +:+ gap) e) as [t|] eqn:Ht; simpl.
      - apply elements_value; [by apply He|exact IH].
      - apply serialize_none in Ht as ->. by apply elements_hole. }
    destruct es as [|e es]; [constructor|].
    change (serialize_elements (i +:+ gap) (e :: es))
      with (default "null" (serialize (i +:+ gap) e)
              :: serialize_elements (i +:+ gap) es) in *.
    rewrite wrap_block. by apply renders_array.
  - rewrite serialize_object_members. intros [= <-].
    assert (renders_members (i +:+ "  ") ps
              (serialize_members (i +:+ gap) ps)) as Hms.
    { induction IHps as [|[k x] ps Hx _ IH]; simpl; [constructor|].
      destruct (serialize (i +:+ gap) x) as [t|] eqn:Ht; simpl.
      - apply members_member; [apply escape_escaped|by apply Hx|exact IH].
      - apply serialize_none in Ht as ->. by apply members_skip. }
    destruct (serialize_members (i +:+ gap) ps) as [|m ms].
    + by apply renders_empty_object.
    + rewrite wrap_block. by apply renders_object.
Qed.

Lemma plain_char_escape c : plain_char c = true → escape_char c = String c "".
Proof.
  destruct c as [[] [] [] [] [] [] [] []]; intros H; vm_compute in H;
    first [discriminate H | reflexivity].
Qed.

Lemma short_escape_escape c e :
  short_escape c = Some e → escape_char c = String "\"%char (String e "").
Proof.
  destruct c as [[] [] [] [] [] [] [] []]; intros H; vm_compute in H;
    first [discriminate H | by injection H as <-].
Qed.

Lemma unicode_escape c :
  plain_char c = false → short_escape c = None →
  escape_char c =
    "\u00" +:+ String (hex_char (nat_of_ascii c / 16))
                 (String (hex_char (nat_of_ascii c mod 16)) "").
Proof.
  destruct c as [[] [] [] [] [] [] [] []]; intros H1 H2;
    vm_compute in H1; vm_compute in H2;
    first [discriminate H1 | discriminate H2 | reflexivity].
Qed.

Lemma escaped_escape s t : escaped s t → t = escape s.
Proof.
  induction 1 as [|c s t Hc _ ->|c e s t Hc _ ->|c s t Hc He _ ->];
    cbn [escape].
  - done.
  - by rewrite (plain_char_escape c Hc).
  - by rewrite (short_escape_escape c e Hc).
  - by rewrite (unicode_escape c Hc He).
Qed.

(** The text of a value is the one [serialize] gives: [renders] leaves no
    choice. *)
Lemma renders_serialize i (v : val) t :
  renders i v t → serialize i v = Some t.
Proof.
  revert i v t.
  apply (renders_mutind
           (fun i v t => serialize i v = Some t)
           (fun i es items => serialize_elements i es = items)
           (fun i ps ms => serialize_members i ps = ms)).
  - done.
  - done.
  - done.
  - done.
  - intros i s t ->%escaped_escape. done.
  - done.
  - intros i e es xs items _ <-. rewrite serialize_array_items.
    change (i +:+ gap) with (i +:+ "  ").
    change (serialize_elements (i +:+ "  ") (e :: es))
      with (default "null" (serialize (i +:+ "  ") e)
              :: serialize_elements (i +:+ "  ") es).
    by rewrite wrap_block.
  - intros i ps _ H. rewrite serialize_object_members.
    change (i +:+ gap) with (i +:+ "  "). by rewrite H.
  - intros i ps m ms _ H. rewrite serialize_object_members.
    change (i +:+ gap) with (i +:+ "  "). by rewrite H, wrap_block.
  - done.
  - intros i es items _ <-. done.
  - intros i e es t items _ He _ <-.
    unfold serialize_elements. cbn [map]. by rewrite He.
  - done.
  - intros i k ps ms _ <-. done.
  - intros i k x kt t ps ms ->%escaped_escape _ Hx _ <-.
    cbn [serialize_members]. by rewrite Hx.
Qed.

Lemma renders_unique i (v : val) t1 t2 :
  renders i v t1 → renders i v t2 → t1 = t2.
Proof. intros H1%renders_serialize H2%renders_serialize. congruence. Qed.

(** C8, amended: a run writes at most once; and a run that succeeds (it
    prints [Config updated successfully.]) has had a non-empty host root
    [R], has read the file's text, whatever syntax it used, evaluated it to
    a document [D], patched it to [D'], and has made one write, over the
    file at the config path: the text that [JSON.stringify(D', null, 2)]
    gives for the whole of [D'], which is the strict JSON text of [D'] with
    two spaces to a level as [renders] spells it out (keys and strings
    quoted and escaped, one member or element to a line; a property whose
    value is [undefined] and the named properties of an array are not part
    of it).  The run exits with status 0. *)
Theorem success_writes_strict_indented_json_once env files :
  let o := run env files in
  (List.length (fs_writes (final o)) ≤ 1)%nat ∧
  (Log "Config updated successfully." ∈ console (final o) →
   ∃ R raw D D' text,
     host_workspace_root env = Some R ∧ R ≠ "" ∧
     files !! config_path env = Some (RegularFile raw true true) ∧
     evaluate raw = Normal D ∧
     apply_patch R D = Normal D' ∧
     json_stringify D' = Some text ∧
     renders "" D' text ∧
     fs_writes (final o) = [(config_path env, text)] ∧
     disk (final o) =
       <[config_path env := RegularFile text true true]> files ∧
     exit_code o = 0%Z).
Proof.
  cbv zeta. rewrite run_eq. cbv zeta.
  destruct (env_falsy (host_workspace_root env)) eqn:Hroot;
    [no_success|].
  destruct (files !! config_path env) as [[raw [] w|]|] eqn:Hfile;
    try no_success.
  destruct (evaluate raw) as [D|e] eqn:Hraw; [|no_success].
  destruct (ensure_structure D) as [c1|e] eqn:H1; [|no_success].
  destruct (inject_workspace_root _ c1) as [c2|e] eqn:H2; [|no_success].
  destruct (set_workspace c2) as [c3|e] eqn:H3; [|no_success].
  destruct (json_stringify c3) as [text|] eqn:Htext; [|no_success].
  destruct w; [|no_success].
  simpl. split; [lia|]. intros _.
  destruct (host_workspace_root env) as [R|] eqn:HR; [|done].
  exists R, raw, D, c3, text. simpl in Hroot, H2.
  repeat split; try done.
  - by apply String.eqb_neq.
  - unfold apply_patch. rewrite H1. simpl. by rewrite H2.
  - by apply serialize_renders.
Qed.

End Properties.

(** * Witnesses and counterexamples, on the reference engine *)

Lemma patch_sets_both_fields_witness :
  ∃ D', apply_patch "/data" foo_doc = Normal D' ∧
        own_path D' workspace_root_path = Some (VStr "/data") ∧
        own_path D' workspace_path = Some (VStr "/workspace") ∧
        ∀ p v, off_patch p = true →
               own_path foo_doc p = Some v → own_path D' p = Some v.
Proof.
  apply (patch_sets_both_fields_and_keeps_the_rest (E := reference_engine)
           "/data" foo_doc).
  reflexivity.
Defined.

Lemma ensure_structure_witness :
  (∀ p y, own_path foo_doc p = Some y → is_prefix p sandbox_path = false →
          own_path foo_doc_normalized p = Some y) ∧
  (∀ x, own_path foo_doc sandbox_path = Some x → to_boolean x = true →
        own_path foo_doc_normalized sandbox_path = Some x) ∧
  ((∀ x, own_path foo_doc sandbox_path = Some x → to_boolean x = false) →
   own_path foo_doc_normalized sandbox_path = Some (VObj [])) ∧
  ((∀ x, own_path foo_doc ["agents"; "defaults"] = Some x →
         to_boolean x = false) →
   own_path foo_doc_normalized ["agents"; "defaults"] =
     Some (VObj [("sandbox", VObj [])])) ∧
  ((∀ x, own_path foo_doc ["agents"] = Some x → to_boolean x = false) →
   own_path foo_doc_normalized ["agents"] =
     Some (VObj [("defaults", VObj [("sandbox", VObj [])])])).
Proof.
  apply (ensure_structure_fills_missing_or_falsy_levels
           (E := reference_engine) foo_doc foo_doc_normalized).
  reflexivity.
Defined.

(** C2 as stated fails: a [sandbox] field that exists and holds [false] is
    not kept, the guard of line 26 puts [{}] in its place. *)
Lemma ensure_structure_replaces_falsy_sandbox :
  own_path sandbox_off_doc sandbox_path = Some (VBool false) ∧
  ensure_structure sandbox_off_doc = Normal sandbox_empty_doc ∧
  own_path sandbox_empty_doc sandbox_path = Some (VObj []) ∧
  own_path sandbox_empty_doc sandbox_path
    ≠ own_path sandbox_off_doc sandbox_path.
Proof. repeat split; done. Qed.

Lemma apply_patch_idempotent_witness :
  ∃ D', apply_patch "/data" foo_doc = Normal D' ∧
        apply_patch "/data" D' = Normal D'.
Proof.
  apply (apply_patch_idempotent (E := reference_engine) "/data" foo_doc).
  reflexivity.
Defined.

Lemma parse_failure_witness :
  let o := run (root_env "/data") (disk_with "{ agents: ") in
  exit_code o = 1%Z ∧ disk (final o) = disk_with "{ agents: " ∧
  fs_writes (final o) = [] ∧
  (true = true → console (final o) = [failure SyntaxError]).
Proof.
  apply (parse_failure_exits_1_file_unchanged (E := reference_engine)
           (root_env "/data") (disk_with "{ agents: ") "/data" "{ agents: "
           true true SyntaxError);
    [reflexivity|discriminate|reflexivity|reflexivity].
Defined.

(** C4 as stated fails: without a host workspace root the process exits
    with status 0, whatever the file holds, also a text that does not
    parse. *)
Lemma parse_failure_without_host_root_exits_0 :
  evaluate "{ agents: " = Throw SyntaxError ∧
  exit_code (run ∅ (disk_with "{ agents: ")) = 0%Z.
Proof. split; reflexivity. Qed.

Lemma missing_host_root_witness :
  run ∅ (disk_with "{}") =
    ended 0 (disk_with "{}")
      [Warn "HOST_WORKSPACE_ROOT not set. Skipping sandbox workspaceRoot injection."]
      [].
Proof.
  apply (missing_host_root_skips (E := reference_engine) ∅ (disk_with "{}")).
  left. reflexivity.
Defined.

Lemma missing_config_file_witness :
  let o := run (root_env "/data") ∅ in
  exit_code o = 0%Z ∧ disk (final o) = ∅ ∧ fs_writes (final o) = [] ∧
  console (final o) =
    if env_falsy (host_workspace_root (root_env "/data")) then
      [Warn "HOST_WORKSPACE_ROOT not set. Skipping sandbox workspaceRoot injection."]
    else
      [Error ("Config file not found at " +:+ config_path (root_env "/data"))
         None].
Proof.
  apply (missing_config_file_exits_0 (E := reference_engine)
           (root_env "/data") ∅).
  reflexivity.
Defined.

(** C6 as stated fails: when the config path does not exist and the host
    workspace root is not set either, what is printed is the warning of the
    host-root guard, and no error-level message. *)
Lemma missing_config_file_without_host_root_logs_warning :
  (∅ : gmap string node) !! config_path ∅ = None ∧
  console (final (run ∅ ∅)) =
    [Warn "HOST_WORKSPACE_ROOT not set. Skipping sandbox workspaceRoot injection."].
Proof. split; reflexivity. Qed.

(** C7 as stated fails: a file that holds [null] exists and parses, and no
    write fails, none being attempted; the process exits with status 1. *)
Lemma null_document_exits_1_without_parse_or_write_failure :
  let o := run (root_env "/data") (disk_with "null") in
  evaluate "null" = Normal VNull ∧
  fs_writes (final o) = [] ∧
  exit_code o = 1%Z.
Proof. repeat split; reflexivity. Qed.

Lemma success_writes_strict_json_witness :
  let raw :=
    requote
      "{ agents: { /* defaults */ defaults: { note: 'a\'b\\c\nd', foo: [1, {}], }, }, }" in
  let D' : value Z :=
    VObj [("agents",
           VObj [("defaults",
                  VObj [("note",
                         VStr ("a" +:+ dquote +:+ "b\c" +:+ newline +:+ "d"));
                        ("foo", VArr [VNum 1%Z; VObj []] []);
                        ("sandbox", VObj [("workspaceRoot", VStr "/data")]);
                        ("workspace", VStr "/workspace")])])] in
  let text :=
    requote
      (lines ["{";
              "  'agents': {";
              "    'defaults': {";
              "      'note': 'a\'b\\c\nd',";
              "      'foo': [";
              "        1,";
              "        {}";
              "      ],";
              "      'sandbox': {";
              "        'workspaceRoot': '/data'";
              "      },";
              "      'workspace': '/workspace'";
              "    }";
              "  }";
              "}"]) in
  let o := run (root_env "/data") (disk_with raw) in
  renders "" D' text ∧
  fs_writes (final o) = [(default_config_path, text)] ∧
  disk (final o) = disk_with text ∧
  exit_code o = 0%Z.
Proof.
  cbv zeta.
  destruct (proj2 (success_writes_strict_indented_json_once
                     (E := reference_engine) (root_env "/data")
                     (disk_with
                        (requote
                           "{ agents: { /* defaults */ defaults: { note: 'a\'b\\c\nd', foo: [1, {}], }, }, }"))))
    as (R & raw & D & D' & text & HR & _ & Hfile & HD & HD' & _ & Hrenders
        & Hwrites & _ & Hexit).
  { vm_compute. do 2 right. left. }
  vm_compute in HR. injection HR as <-.
  vm_compute in Hfile. injection Hfile as <-.
  vm_compute in HD. injection HD as <-.
  vm_compute in HD'. injection HD' as <-.
  vm_compute in Hwrites. injection Hwrites as <-.
  split; [exact Hrenders|]. split; [reflexivity|].
  split; [reflexivity|exact Hexit].
Defined.

(** C8 as stated fails: the whole of the patched document is handed to
    [JSON.stringify], and not all of it is written.  With [agents] an array
    the run succeeds, the patched document holds the host root at
    [agents.defaults.sandbox.workspaceRoot], and the text written is that of
    the document as it was read, without the patch. *)
Lemma success_without_the_patch_in_the_file :
  let o := run (root_env "/data") (disk_with "{ agents: [1] }") in
  let text := requote (lines ["{"; "  'agents': ["; "    1"; "  ]"; "}"]) in
  evaluate "{ agents: [1] }" = Normal agents_array_doc ∧
  apply_patch "/data" agents_array_doc = Normal agents_array_patched ∧
  get_path agents_array_patched workspace_root_path = Normal (VStr "/data") ∧
  Log "Config updated successfully." ∈ console (final o) ∧
  exit_code o = 0%Z ∧
  fs_writes (final o) = [(default_config_path, text)] ∧
  json_stringify agents_array_doc = Some text.
Proof.
  cbv zeta. repeat split; try reflexivity.
  vm_compute. do 2 right. left.
Qed.

Lemma unpatchable_document_witness :
  let o :=
    run (root_env "/data")
      (disk_with "{ agents: { defaults: { sandbox: 'docker' } } }") in
  apply_patch "/data"
    (VObj [("agents",
            VObj [("defaults", VObj [("sandbox", VStr "docker")])])]
     : value Z) = Throw TypeError ∧
  exit_code o = 1%Z ∧
  disk (final o) =
    disk_with "{ agents: { defaults: { sandbox: 'docker' } } }" ∧
  fs_writes (final o) = [] ∧
  ∃ printed, console (final o) = printed ++ [failure TypeError].
Proof.
  apply (unpatchable_document_is_a_type_error (E := reference_engine)
           (root_env "/data")
           (disk_with "{ agents: { defaults: { sandbox: 'docker' } } }")
           "/data" "{ agents: { defaults: { sandbox: 'docker' } } }" true
           (VObj [("agents",
                   VObj [("defaults", VObj [("sandbox", VStr "docker")])])]));
    [reflexivity|discriminate|reflexivity|reflexivity|].
  right. exists sandbox_path, (VStr "docker").
  split; [|split; reflexivity].
  rewrite !elem_of_cons. right. right. left. reflexivity.
Defined.

(** C9 as stated fails, for the patch step is not always reached.  Without
    a host workspace root a file that holds [null] ends in status 0 with
    the warning; with the root set and the file unreadable, the read throws
    a system error, and it is that error, not a [TypeError], that the
    handler prints. *)
Lemma null_document_with_the_patch_not_reached :
  let skipped := run ∅ (disk_with "null") in
  let unreadable :=
    run (root_env "/data")
      {[ default_config_path := RegularFile "null" false true ]} in
  evaluate "null" = Normal VNull ∧
  is_object (VNull : value Z) = false ∧
  exit_code skipped = 0%Z ∧
  console (final skipped) =
    [Warn "HOST_WORKSPACE_ROOT not set. Skipping sandbox workspaceRoot injection."] ∧
  exit_code unreadable = 1%Z ∧
  console (final unreadable) = [failure (SystemError "EACCES")].
Proof. repeat split; reflexivity. Qed.

Lemma run_deterministic_witness :
  let env1 := root_env "/data" in
  let env2 := <["PATH" := "/usr/bin"]> (root_env "/data") in
  let files1 := disk_with "{}" in
  let files2 := <["/etc/hostname" := RegularFile "box" true false]>
                  (disk_with "{}") in
  exit_code (run env1 files1) = exit_code (run env2 files2) ∧
  disk (final (run env1 files1)) !! config_path env1 =
    disk (final (run env2 files2)) !! config_path env2 ∧
  console (final (run env1 files1)) = console (final (run env2 files2)) ∧
  fs_writes (final (run env1 files1)) = fs_writes (final (run env2 files2)).
Proof.
  apply (run_deterministic (E := reference_engine) (root_env "/data")
           (<["PATH" := "/usr/bin"]> (root_env "/data")) (disk_with "{}")
           (<["/etc/hostname" := RegularFile "box" true false]>
              (disk_with "{}")));
    reflexivity.
Defined.

(** C10 as stated fails: the content of the file and the two variables do
    not fix the outcome.  The same content under the same variables ends in
    status 0 with the patched text in the file when the file can be
    written, and in status 1 with the file as it was when it cannot. *)
Lemma same_content_read_only_differs :
  let writable := run (root_env "/data") (disk_with "{}") in
  let read_only :=
    run (root_env "/data")
      {[ default_config_path := RegularFile "{}" true false ]} in
  let text :=
    requote
      (lines ["{";
              "  'agents': {";
              "    'defaults': {";
              "      'sandbox': {";
              "        'workspaceRoot': '/data'";
              "      },";
              "      'workspace': '/workspace'";
              "    }";
              "  }";
              "}"]) in
  exit_code writable = 0%Z ∧
  disk (final writable) !! default_config_path =
    Some (RegularFile text true true) ∧
  exit_code read_only = 1%Z ∧
  disk (final read_only) !! default_config_path =
    Some (RegularFile "{}" true false).
Proof. repeat split; reflexivity. Qed.

Lemma run_touches_config_path_only_witness :
  disk (final (run (root_env "/data")
                 (<["/etc/hostname" := RegularFile "box" true true]>
                    (disk_with "{}")))) !! "/etc/hostname" =
  (<["/etc/hostname" := RegularFile "box" true true]> (disk_with "{}"))
    !! "/etc/hostname".
Proof.
  apply (run_touches_config_path_only (E := reference_engine)
           (root_env "/data")
           (<["/etc/hostname" := RegularFile "box" true true]>
              (disk_with "{}")) "/etc/hostname").
  discriminate.
Defined.

(** ** The scenarios of the specification *)

(** The empty object with the host root [/home/user/proj]: the file the run
    leaves, line by line. *)
Example empty_document_scenario :
  let o := run (root_env "/home/user/proj") (disk_with "{}") in
  exit_code o = 0%Z ∧
  disk (final o) !! default_config_path =
    Some (RegularFile
            (requote (lines
               ["{";
                "  'agents': {";
                "    'defaults': {";
                "      'sandbox': {";
                "        'workspaceRoot': '/home/user/proj'";
                "      },";
                "      'workspace': '/workspace'";
                "    }";
                "  }";
                "}"]))
            true true).
Proof. split; vm_compute; reflexivity. Qed.

(** A document with [agents.defaults.foo] and the host root [/data]: [foo]
    stays where it was, the two fields come after it. *)
Example foo_document_scenario :
  let o :=
    run (root_env "/data")
      (disk_with (requote "{'agents':{'defaults':{'foo':1}}}")) in
  exit_code o = 0%Z ∧
  disk (final o) !! default_config_path =
    Some (RegularFile
            (requote (lines
               ["{";
                "  'agents': {";
                "    'defaults': {";
                "      'foo': 1,";
                "      'sandbox': {";
                "        'workspaceRoot': '/data'";
                "      },";
                "      'workspace': '/workspace'";
                "    }";
                "  }";
                "}"]))
            true true).
Proof. split; vm_compute; reflexivity. Qed.

(** Comments, bare keys, single quotes and trailing commas go in, strict
    JSON comes out; and a second run over the file the first one wrote
    leaves it as it is. *)
Example relaxed_input_scenario :
  let o1 :=
    run (root_env "/srv/ws")
      (disk_with
         "{ /* gateway */ agents: { defaults: { sandbox: { mode: 'off', }, }, }, port: 8080, }")
  in
  let o2 := run (root_env "/srv/ws") (disk (final o1)) in
  disk (final o1) !! default_config_path =
    Some (RegularFile
            (requote (lines
               ["{";
                "  'agents': {";
                "    'defaults': {";
                "      'sandbox': {";
                "        'mode': 'off',";
                "        'workspaceRoot': '/srv/ws'";
                "      },";
                "      'workspace': '/workspace'";
                "    }";
                "  },";
                "  'port': 8080";
                "}"]))
            true true) ∧
  exit_code o2 = 0%Z ∧
  disk (final o2) = disk (final o1).
Proof. repeat split; vm_compute; reflexivity. Qed.

Lemma second_run_witness :
  let o1 := run (root_env "/data") (disk_with "{}") in
  let o2 := run (root_env "/data") (disk (final o1)) in
  exit_code o1 = 0%Z ∧ exit_code o2 = 0%Z ∧
  disk (final o2) = disk (final o1) ∧
  disk (final o1) !! config_path (root_env "/data") =
    Some (RegularFile
            (requote (lines
               ["{";
                "  'agents': {";
                "    'defaults': {";
                "      'sandbox': {";
                "        'workspaceRoot': '/data'";
                "      },";
                "      'workspace': '/workspace'";
                "    }";
                "  }";
                "}"]))
            true true).
Proof.
  apply (second_run_leaves_the_file (E := reference_engine)
           (root_env "/data") (disk_with "{}") "/data" "{}" (VObj [])
           (VObj [("agents",
                   VObj [("defaults",
                          VObj [("sandbox",
                                 VObj [("workspaceRoot", VStr "/data")]);
                                ("workspace", VStr "/workspace")])])]));
    [reflexivity|discriminate|reflexivity|reflexivity|reflexivity
    |reflexivity|vm_compute; reflexivity].
Defined.

Lemma patch_keeps_key_order_witness :
  ∃ o', own_path
          (VObj [("agents",
                  VObj [("defaults",
                         VObj [("foo", VNum 1%Z);
                               ("sandbox",
                                VObj [("workspaceRoot", VStr "/data")]);
                               ("workspace", VStr "/workspace")])])]
           : value Z) ["agents"; "defaults"] = Some o' ∧
        own_keys o' =
          foldl (λ ks k, add_key k ks)
            (own_keys (VObj [("foo", VNum 1%Z)] : value Z))
            (new_keys ["agents"; "defaults"]).
Proof.
  apply (patch_keeps_key_order (E := reference_engine) "/data" foo_doc
           (VObj [("agents",
                   VObj [("defaults",
                          VObj [("foo", VNum 1%Z);
                                ("sandbox",
                                 VObj [("workspaceRoot", VStr "/data")]);
                                ("workspace", VStr "/workspace")])])])
           (VObj [("foo", VNum 1%Z)]) ["agents"; "defaults"]);
    reflexivity.
Defined.

Lemma ensure_structure_leaves_truthy_fields_witness :
  ∃ a d sb,
    own_path foo_doc_normalized ["agents"] = Some a ∧ is_object a = true ∧
    own_path foo_doc_normalized ["agents"; "defaults"] = Some d ∧
    is_object d = true ∧
    own_path foo_doc_normalized sandbox_path = Some sb ∧
    to_boolean sb = true.
Proof.
  apply (ensure_structure_leaves_truthy_fields (E := reference_engine)
           foo_doc foo_doc_normalized).
  reflexivity.
Defined.

Lemma every_write_witness :
  config_path (root_env "/data") = config_path (root_env "/data") ∧
  ∃ R raw w D D',
    host_workspace_root (root_env "/data") = Some R ∧ R ≠ "" ∧
    disk_with "{}" !! config_path (root_env "/data") =
      Some (RegularFile raw true w) ∧
    evaluate raw = Normal D ∧
    apply_patch R D = Normal D' ∧
    json_stringify D' = json_stringify sandbox_patched_doc.
Proof.
  apply (every_write_is_a_patched_document (E := reference_engine)
           (root_env "/data") (disk_with "{}")).
  vm_compute. left.
Defined.

Lemma refused_write_witness :
  ∃ D' text,
    apply_patch "/data" (VObj [] : value Z) = Normal D' ∧
    json_stringify D' = Some text ∧
    run (root_env "/data")
      {[ default_config_path := RegularFile "{}" true false ]} =
      ended 1 {[ default_config_path := RegularFile "{}" true false ]}
        [Log ("Injecting sandbox.workspaceRoot = " +:+ "/data");
         Log "Setting internal workspace = /workspace";
         failure (SystemError "EACCES")]
        [(config_path (root_env "/data"), text)].
Proof.
  apply (refused_write_exits_1 (E := reference_engine) (root_env "/data")
           {[ default_config_path := RegularFile "{}" true false ]}
           "/data" "{}" (VObj []));
    [reflexivity|discriminate|reflexivity|reflexivity|reflexivity].
Defined.

Lemma patch_below_array_witness :
  json_stringify agents_array_patched = json_stringify agents_array_doc.
Proof.
  apply (patch_below_array_is_not_written (E := reference_engine) "/data"
           agents_array_doc agents_array_patched ["agents"] [VNum 1%Z] []);
    [|reflexivity|reflexivity].
  rewrite !elem_of_cons. right. left. reflexivity.
Defined.

Lemma last_host_root_wins_witness :
  apply_patch "/srv/ws" sandbox_patched_doc = apply_patch "/srv/ws" (VObj []).
Proof.
  apply (last_host_root_wins (E := reference_engine) "/data" "/srv/ws"
           (VObj []) sandbox_patched_doc).
  reflexivity.
Defined.
